(** * Admission validators of anchor (anchor/validators/custom.py)

    A shallow embedding of the validators of [custom.py] and of the helpers
    they call, with the properties of the validators proved on it.

    Python values are modelled as follows.
    - [str] is [string]; a [dict] with string keys is a [gmap string _];
      a [set] is a [gset _]; a [list] is a [list].
    - A call either returns or raises: [outcome A].  [ValidationError] is
      the exception of [anchor.validators.errors]; [AddrFormatError] is
      netaddr's; [TypeError], [AttributeError] and [ValueError] are the
      interpreter's (iterating [None], reading an attribute of [None],
      [', '.join] over a list holding [None]; [ValueError] is also what
      netaddr raises for a text it refuses for another reason than its
      format, such as an address written with a prefix).
    - A keyword whose default is [None] is an [option]; the [csr] keyword
      is always passed by the pipeline and is modelled as present.
    - Logging is not part of an outcome and is left out. *)

From Stdlib Require Import String Ascii List ZArith NArith Bool Lia DecimalString.
From stdpp Require Import base option list gmap strings sets.

Local Open Scope string_scope.

(** ** Strings *)

Module Str.

(** [c in s] for a one-character string [c]. *)
Fixpoint contains (c : ascii) (s : string) : bool :=
  match s with
  | EmptyString => false
  | String a s' => if Ascii.eqb a c then true else contains c s'
  end.

(** [s.split(c)] for a one-character separator: the pieces between the
    occurrences of [c]; never empty, and a single piece when [c] does not
    occur. *)
Fixpoint split (c : ascii) (s : string) : list string :=
  match s with
  | EmptyString => [EmptyString]
  | String a s' =>
      if Ascii.eqb a c then EmptyString :: split c s'
      else match split c s' with
           | p :: ps => String a p :: ps
           | [] => [String a EmptyString]
           end
  end.

(** [s.endswith(suffix)]. *)
Definition endswith (s suffix : string) : bool :=
  let n := String.length s in
  let k := String.length suffix in
  if (k <=? n)%nat then String.eqb (substring (n - k) k s) suffix else false.

(** [sep.join(l)]. *)
Fixpoint join (sep : string) (l : list string) : string :=
  match l with
  | [] => ""
  | [x] => x
  | x :: l' => x ++ sep ++ join sep l'
  end.

(** [str(n)] for a non-negative integer. *)
Definition of_N (n : N) : string := NilZero.string_of_uint (N.to_uint n).

(** [str(b)] for a boolean. *)
Definition of_bool (b : bool) : string := if b then "True" else "False".

End Str.

(** ** Outcomes of calls *)

(** An object identifier ([pyasn1]'s [ObjectIdentifier]) is its tuple of
    arcs. *)
Abbreviation oid := (list N).

(** The text of an error.  [Joined prefix items] is [prefix % ', '.join(items)]
    for a Python [set] [items], whose iteration order is not fixed: the
    text is determined up to the order of the items.
    [JoinedShortNames prefix oids] is the same with every object identifier
    of the set [oids] rendered by its short name. *)
Inductive message :=
| Msg (text : string)
| Joined (prefix : string) (items : gset string)
| JoinedShortNames (prefix : string) (oids : gset oid).

Inductive exn :=
| ValidationError (msg : message)
| AddrFormatError
| TypeError
| AttributeError
| ValueError.

Inductive outcome (A : Type) :=
| Return (a : A)
| Raise (e : exn).
Arguments Return {A} a.
Arguments Raise {A} e.

#[global] Instance outcome_ret : MRet outcome := fun A a => Return a.
#[global] Instance outcome_bind : MBind outcome := fun A B k m =>
  match m with
  | Return a => k a
  | Raise e => Raise e
  end.

(** [try: body / except AddrFormatError: handler]. *)
Definition except_AddrFormatError {A} (body handler : outcome A) : outcome A :=
  match body with
  | Raise AddrFormatError => handler
  | other => other
  end.

(** [if cond: raise e]. *)
Definition raise_if (cond : bool) (e : exn) : outcome unit :=
  if cond then Raise e else Return tt.

(** A [for] loop whose body may raise: the first exception ends it. *)
Fixpoint for_each {A} (body : A -> outcome unit) (l : list A) : outcome unit :=
  match l with
  | [] => Return tt
  | x :: l' => body x ;; for_each body l'
  end.

(** ** A concrete instance of the collaborators

    IPv4 addresses in dotted-quad notation, networks as [address/length],
    object identifiers in dotted-decimal notation, and a few entries of the
    name tables; the examples run the validators on it. *)

Module Sample.

Fixpoint parse_digits (s : string) (acc : N) : option N :=
  match s with
  | EmptyString => Some acc
  | String c s' =>
      let d := N_of_ascii c in
      if ((48 <=? d) && (d <=? 57))%N then parse_digits s' (10 * acc + (d - 48))%N
      else None
  end.

Definition parse_number (s : string) : option N :=
  match s with
  | EmptyString => None
  | _ => parse_digits s 0%N
  end.

Definition parse_octet (s : string) : option N :=
  n ← parse_number s; if (n <? 256)%N then Some n else None.

Definition Address : Type := N.
Definition Network : Type := (N * N)%type.

Definition IPAddress (s : string) : option Address :=
  match Str.split "." s with
  | [a; b; c; d] =>
      a ← parse_octet a; b ← parse_octet b; c ← parse_octet c; d ← parse_octet d;
      Some (((a * 256 + b) * 256 + c) * 256 + d)%N
  | _ => None
  end.

Definition IPNetwork (s : string) : option Network :=
  match Str.split "/" s with
  | [a] => ip ← IPAddress a; Some (ip, 32%N)
  | [a; len] =>
      ip ← IPAddress a; n ← parse_number len;
      if (n <=? 32)%N then Some (ip, n) else None
  | _ => None
  end.

(** What the constructors raise for a text they do not accept: netaddr's
    [IPAddress] raises [ValueError] for a text with a slash (an address
    with a netmask or prefix) and [AddrFormatError] otherwise; [IPNetwork]
    reads what follows the first slash as a prefix length or a netmask, so
    it raises [ValueError] when that part has a slash itself and
    [AddrFormatError] otherwise. *)
Definition IPAddress_raises (s : string) : exn :=
  if Str.contains "/" s then ValueError else AddrFormatError.

Definition IPNetwork_raises (s : string) : exn :=
  match Str.split "/" s with
  | _ :: _ :: _ :: _ => ValueError
  | _ => AddrFormatError
  end.

Definition net_contains (r : Network) (a : Address) : bool :=
  (N.shiftr a (32 - r.2) =? N.shiftr r.1 (32 - r.2))%N.

Definition addr_str (a : Address) : string :=
  Str.join "."
    (map (fun k => Str.of_N (N.land (N.shiftr a (8 * k)) 255)) [3; 2; 1; 0]%N).

Definition ObjectIdentifier (s : string) : option oid :=
  mapM parse_number
       (filter (fun p => p ≠ EmptyString) (Str.split "." s)).

Definition LONG_KEY_USAGE_NAMES : gmap string string :=
  list_to_map [("Digital Signature", "digitalSignature");
               ("Key Encipherment", "keyEncipherment");
               ("Certificate Sign", "keyCertSign");
               ("CRL Sign", "cRLSign")].

Definition serverAuth : oid := [1; 3; 6; 1; 5; 5; 7; 3; 1]%N.
Definition clientAuth : oid := [1; 3; 6; 1; 5; 5; 7; 3; 2]%N.

Definition EXT_KEY_USAGE_NAMES_INV : gmap string oid :=
  list_to_map [("TLS Web Server Authentication", serverAuth);
               ("TLS Web Client Authentication", clientAuth)].

Definition EXT_KEY_USAGE_SHORT_NAMES_INV : gmap string oid :=
  list_to_map [("serverAuth", serverAuth); ("clientAuth", clientAuth)].

Definition EXT_KEY_USAGE_SHORT_NAMES : gmap oid string :=
  list_to_map [(serverAuth, "serverAuth"); (clientAuth, "clientAuth")].

End Sample.

(** ** The certificate request *)

Section Validators.

(** *** External collaborators

    [netaddr]: [IPAddress s] and [IPNetwork s] are [None] where the
    constructor raises, and [IPAddress_raises s] and [IPNetwork_raises s]
    are then the exception it raises: [AddrFormatError] for a text that
    is not an address or a network, but also [ValueError], for instance
    for an address written with a prefix; [net_contains r a] is [a in r];
    [addr_str a] is [str(a)]. *)
Context {Address Network : Type}.
Variable IPAddress : string -> option Address.
Variable IPAddress_raises : string -> exn.
Variable IPNetwork : string -> option Network.
Variable IPNetwork_raises : string -> exn.
Variable net_contains : Network -> Address -> bool.
Variable addr_str : Address -> string.

(** [pyasn1]: [ObjectIdentifier s] for a [str] [s] is [None] where the
    constructor raises. *)
Variable ObjectIdentifier : string -> option oid.

(** The name tables of [anchor.X509.extension] (not part of this file's
    source): long key-usage names to canonical flags, extended-key-usage
    long and short names to object identifiers, and object identifiers to
    short names. *)
Variable LONG_KEY_USAGE_NAMES : gmap string string.
Variable EXT_KEY_USAGE_NAMES_INV : gmap string oid.
Variable EXT_KEY_USAGE_SHORT_NAMES_INV : gmap string oid.
Variable EXT_KEY_USAGE_SHORT_NAMES : gmap oid string.

(** An entry of a subjectAltName extension: its type name and its value. *)
Inductive general_name :=
| GN_DNS (name : string)
| GN_IP (ip : Address)
| GN_Other (type_name : string) (value : string).

Definition name_type (g : general_name) : string :=
  match g with
  | GN_DNS _ => "DNS"
  | GN_IP _ => "IP Address"
  | GN_Other t _ => t
  end.

(** The extensions, by class: [X509ExtensionSubjectAltName],
    [X509ExtensionBasicConstraints] with [get_ca()],
    [X509ExtensionKeyUsage] with [get_all_usages()] (and [get_usage(u)] as
    membership), [X509ExtensionExtendedKeyUsage] with [get_all_usages()],
    and any other extension with its object identifier and name. *)
Inductive Extension :=
| SubjectAltName (entries : list general_name)
| BasicConstraints (ca : bool)
| KeyUsage (usages : gset string)
| ExtendedKeyUsage (usages : gset oid)
| OtherExtension (ext_oid : oid) (ext_name : string).

(** Modelled from the spec: [get_name] and [get_oid] of the extension
    classes of [anchor.X509.extension], which is not under src/.  Every
    extension carries its registered short name; the typed extensions have
    the names and identifiers registered for them. *)
Definition get_name (ext : Extension) : string :=
  match ext with
  | SubjectAltName _ => "subjectAltName"
  | BasicConstraints _ => "basicConstraints"
  | KeyUsage _ => "keyUsage"
  | ExtendedKeyUsage _ => "extendedKeyUsage"
  | OtherExtension _ n => n
  end.

Definition get_oid (ext : Extension) : oid :=
  match ext with
  | SubjectAltName _ => [2; 5; 29; 17]%N
  | BasicConstraints _ => [2; 5; 29; 19]%N
  | KeyUsage _ => [2; 5; 29; 15]%N
  | ExtendedKeyUsage _ => [2; 5; 29; 37]%N
  | OtherExtension o _ => o
  end.

(** [str(oid)]: the arcs in decimal, joined by dots. *)
Definition oid_str (o : oid) : string := Str.join "." (map Str.of_N o).

(** [x509_name.OID_commonName]. *)
Definition OID_commonName : oid := [2; 5; 4; 3]%N.

(** The request: the subject's entries (attribute type and value, in
    order), the extensions in order, and the result of [verify()]
    ([None] where it raises [X509Error]). *)
Record CSR := {
  subject : list (oid * string);
  extensions_of : list Extension;
  verify : option bool
}.

(** [csr.get_subject().get_entries_by_oid(o)], as the values of the entries. *)
Definition get_entries_by_oid (o : oid) (csr : CSR) : list string :=
  map snd (filter (fun e => e.1 = o) (subject csr)).

(** [csr.get_extensions()]. *)
Definition get_extensions (csr : CSR) : list Extension := extensions_of csr.

Record AuthResult := { groups : gset string }.
Record Request := { client_addr : Address }.

(** *** Errors

    The validators raise [ValidationError] with the texts below; each is
    named as the specification names the failure. *)
Definition TooManyCN : exn :=
  ValidationError (Msg "Too many CNs in the request").
Definition NoSubjectIdentity : exn :=
  ValidationError (Msg "Alt subjects have to exist if the main subject doesn't").
Definition NetworkNotAllowed (cn : string) : exn :=
  ValidationError
    (Msg ("Address '" ++ cn ++ "' not allowed (does not match known networks)")).
Definition DomainNotAllowed (cn : string) : exn :=
  ValidationError
    (Msg ("Domain '" ++ cn ++ "' not allowed (does not match known domains)")).
Definition AltDomainNotAllowed (name : string) : exn :=
  ValidationError
    (Msg ("Domain '" ++ name ++ "' not allowed (doesn't match known domains)")).
Definition AltNetworkNotAllowed (ip : Address) : exn :=
  ValidationError
    (Msg ("IP '" ++ addr_str ip ++ "' not allowed (doesn't match known networks)")).
Definition CNBlacklisted (cn : string) : exn :=
  ValidationError (Msg ("Domain '" ++ cn ++ "' not allowed (CN blacklisted)")).
Definition AltBlacklisted (name : string) : exn :=
  ValidationError (Msg ("Domain '" ++ name ++ "' not allowed (alt blacklisted)")).
Definition GroupMismatch : exn :=
  ValidationError (Msg "Server prefix doesn't match user groups").
Definition ExtensionNotAllowed (name : string) : exn :=
  ValidationError (Msg ("Extension '" ++ name ++ "' not allowed")).
Definition KeyUsageNotAllowed (denied : gset string) : exn :=
  ValidationError (Joined "Found some prohibited key usages: " denied).
Definition UnknownUsage (usage : string) : exn :=
  ValidationError (Msg ("Unknown usage: " ++ usage)).
Definition ExtKeyUsageNotAllowed (denied : gset oid) : exn :=
  ValidationError (JoinedShortNames "Found some prohibited key usages: " denied).
Definition CANotAllowed : exn :=
  ValidationError (Msg "CA status requested, but not allowed").
Definition KeyUsageCAMismatch (has_cert_sign has_crl_sign : bool) : exn :=
  ValidationError
    (Msg ("Key usage doesn't match requested CA status (keyCertSign/cRLSign: "
          ++ Str.of_bool has_cert_sign ++ "/" ++ Str.of_bool has_crl_sign ++ ")")).
Definition CAFlagsRequired : exn :=
  ValidationError (Msg "CA flags required").
Definition InvalidCIDRConfig (cidr : string) : exn :=
  ValidationError
    (Msg ("Cidr '" ++ cidr ++ "' does not describe a valid network")).
Definition SourceNotAllowed (addr : Address) : exn :=
  ValidationError
    (Msg ("No network matched the request source '" ++ addr_str addr ++ "'")).
Definition InvalidSignature : exn :=
  ValidationError (Msg "Signature on the CSR is not valid").

(** Modelled from the spec: the failures of the helpers of
    [anchor.validators.utils], which is not under src/, so their texts are
    unknown; the specification's name of each failure stands for its text. *)
Definition NoCN : exn := ValidationError (Msg "NoCN").
Definition RequireSingleCN_TooManyCN : exn := ValidationError (Msg "TooManyCN").
Definition UnexpectedAltNameType (type_name : string) : exn :=
  ValidationError (Msg ("UnexpectedAltNameType: " ++ type_name)).
Definition NetworkContains_InvalidCIDR (cidr : string) : exn :=
  ValidationError (Msg ("InvalidCIDRConfig: " ++ cidr)).

(** *** Helpers of [anchor.validators.utils] *)

(** Modelled from the spec: [utils.csr_require_cn] (RequireSingleCN) is not
    under src/.  It returns the single CommonName entry, fails with
    TooManyCN if more than one is present and with NoCN if none is. *)
Definition csr_require_cn (csr : CSR) : outcome string :=
  match get_entries_by_oid OID_commonName csr with
  | [] => Raise NoCN
  | [cn] => Return cn
  | _ => Raise RequireSingleCN_TooManyCN
  end.

(** Modelled from the spec: [utils.check_domains] (DomainMatch) is not under
    src/.  True iff the name equals an allowed suffix or ends with a dot
    followed by one; comparison is case-sensitive; an empty list matches
    nothing. *)
Definition check_domains (name : string) (allowed_domains : list string) : bool :=
  existsb (fun d => String.eqb name d || Str.endswith name ("." ++ d))
          allowed_domains.

(** Modelled from the spec: [utils.check_networks] (NetworkContains) is not
    under src/.  True iff the address falls inside one of the networks; a
    network that does not contain the address is skipped; a string that is
    not a valid network is a configuration error, which the specification
    counts among the validation errors.  The list is walked in order, as
    [source_cidrs] walks its own. *)
Fixpoint check_networks (ip : Address) (allowed_networks : list string)
  : outcome bool :=
  match allowed_networks with
  | [] => Return false
  | net :: rest =>
      match IPNetwork net with
      | None => Raise (NetworkContains_InvalidCIDR net)
      | Some r => if net_contains r ip then Return true
                  else check_networks ip rest
      end
  end.

(** A generator that may fail: the items it yields before it stops, and the
    exception it stops with, if any.  A [for] loop over it runs its body on
    each item as it is yielded, so a failure of the body on an earlier item
    comes first. *)
Definition generator (A : Type) : Type := (list A * option exn)%type.

Definition for_gen {A} (body : A -> outcome unit) (g : generator A)
  : outcome unit :=
  for_each body g.1 ;;
  match g.2 with
  | Some e => Raise e
  | None => Return tt
  end.

(** Modelled from the spec: [utils.iter_alternative_names]
    (AlternativeNames) is not under src/.  A lazy sequence of the entries of
    the subjectAltName extension (empty if there is none; the entries of
    all of them in order if there are several), filtered to the wanted
    types; with [fail_other_types], an entry of another type fails with
    UnexpectedAltNameType when it is reached. *)
Fixpoint iter_entries (types : list string) (fail_other_types : bool)
    (entries : list general_name) : generator general_name :=
  match entries with
  | [] => ([], None)
  | g :: rest =>
      if bool_decide (name_type g ∈ types) then
        let r := iter_entries types fail_other_types rest in (g :: r.1, r.2)
      else if fail_other_types then
        ([], Some (UnexpectedAltNameType (name_type g)))
      else iter_entries types fail_other_types rest
  end.

Definition alt_entries (csr : CSR) : list general_name :=
  flat_map (fun ext => match ext with SubjectAltName es => es | _ => [] end)
           (get_extensions csr).

Definition iter_alternative_names (csr : CSR) (types : list string)
    (fail_other_types : bool) : generator general_name :=
  iter_entries types fail_other_types (alt_entries csr).

(** Modelled from the spec: the default of the [fail_other_types] keyword of
    [utils.iter_alternative_names] is not under src/.  The specification
    has alternativeNames, which calls the helper without the keyword,
    ignore the entries of other types, so the default is taken as false. *)
Definition fail_other_types_default : bool := false.

(** The value of an entry read as a name ([str]); an address is not one. *)
Definition name_of (g : general_name) : outcome string :=
  match g with
  | GN_DNS name => Return name
  | GN_Other _ value => Return value
  | GN_IP _ => Raise AttributeError
  end.

(** *** The validators of [custom.py] *)

(** [netaddr.IPAddress(s)] and [netaddr.IPNetwork(s)] as calls. *)
Definition new_IPAddress (s : string) : outcome Address :=
  match IPAddress s with
  | Some a => Return a
  | None => Raise (IPAddress_raises s)
  end.

Definition new_IPNetwork (s : string) : outcome Network :=
  match IPNetwork s with
  | Some r => Return r
  | None => Raise (IPNetwork_raises s)
  end.

Definition common_name (csr : CSR) (allowed_domains allowed_networks : list string)
  : outcome unit :=
  let alt_present :=
    existsb (fun ext => String.eqb (get_name ext) "subjectAltName")
            (get_extensions csr) in
  let CNs := get_entries_by_oid OID_commonName csr in
  raise_if (1 <? length CNs)%nat TooManyCN ;;
  raise_if ((length CNs =? 0)%nat && negb alt_present) NoSubjectIdentity ;;
  if (0 <? length CNs)%nat then
    cn ← csr_require_cn csr;
    except_AddrFormatError
      (ip ← new_IPAddress cn;
       ok ← check_networks ip allowed_networks;
       raise_if (negb ok) (NetworkNotAllowed cn))
      (raise_if (negb (check_domains cn allowed_domains)) (DomainNotAllowed cn))
  else Return tt.

(** [alternative_names] with the default of the helper's keyword made
    explicit. *)
Definition alternative_names_with (fail_other_types : bool) (csr : CSR)
    (allowed_domains : list string) : outcome unit :=
  for_gen
    (fun g =>
       name ← name_of g;
       raise_if (negb (check_domains name allowed_domains))
                (AltDomainNotAllowed name))
    (iter_alternative_names csr ["DNS"] fail_other_types).

Definition alternative_names : CSR -> list string -> outcome unit :=
  alternative_names_with fail_other_types_default.

Definition alternative_names_ip (csr : CSR)
    (allowed_domains allowed_networks : list string) : outcome unit :=
  for_gen
    (fun g =>
       (if String.eqb (name_type g) "DNS" then
          name ← name_of g;
          raise_if (negb (check_domains name allowed_domains))
                   (AltDomainNotAllowed name)
        else Return tt) ;;
       if String.eqb (name_type g) "IP Address" then
         match g with
         | GN_IP ip =>
             ok ← check_networks ip allowed_networks;
             raise_if (negb ok) (AltNetworkNotAllowed ip)
         | _ => Raise TypeError (* the value of an IP entry is an address *)
         end
       else Return tt)
    (iter_alternative_names csr ["DNS"; "IP Address"] fail_other_types_default).

Definition blacklist_names (csr : CSR) (domains : list string) : outcome unit :=
  match domains with
  | [] => Return tt
  | _ =>
      let CNs := get_entries_by_oid OID_commonName csr in
      (if (0 <? length CNs)%nat then
         cn ← csr_require_cn csr;
         raise_if (check_domains cn domains) (CNBlacklisted cn)
       else Return tt) ;;
      for_gen
        (fun g =>
           name ← name_of g;
           raise_if (check_domains name domains) (AltBlacklisted name))
        (iter_alternative_names csr ["DNS"] false)
  end.

Definition server_group (auth_result : option AuthResult) (csr : CSR)
    (group_prefixes : gmap string string) : outcome unit :=
  cn ← csr_require_cn csr;
  let parts := Str.split "-" cn in
  if (length parts =? 1)%nat || Str.contains "." (hd "" parts) then Return tt
  else
    match group_prefixes !! hd "" parts with
    | Some group =>
        match auth_result with
        | None => Raise AttributeError
        | Some a => raise_if (negb (bool_decide (group ∈ groups a))) GroupMismatch
        end
    | None => Return tt
    end.

Definition extensions (csr : CSR) (allowed_extensions : list string)
  : outcome unit :=
  for_each
    (fun ext =>
       raise_if (negb (bool_decide (get_name ext ∈ allowed_extensions)) &&
                 negb (bool_decide (oid_str (get_oid ext) ∈ allowed_extensions)))
                (ExtensionNotAllowed (get_name ext)))
    (get_extensions csr).

(** The denied flags after the loop of [key_usage] over the extensions. *)
Definition denied_usages (allowed : gset string) (exts : list Extension)
  : gset string :=
  foldl (fun denied ext =>
           match ext with
           | KeyUsage usages => denied ∪ (usages ∖ allowed)
           | _ => denied
           end) ∅ exts.

Definition key_usage (csr : CSR) (allowed_usage : option (list string))
  : outcome unit :=
  match allowed_usage with
  | None => Raise TypeError
  | Some names =>
      let allowed : gset string :=
        list_to_set (map (fun x => default x (LONG_KEY_USAGE_NAMES !! x)) names) in
      let denied := denied_usages allowed (get_extensions csr) in
      raise_if (negb (bool_decide (denied = ∅))) (KeyUsageNotAllowed denied)
  end.

(** An element of the [allowed_usage] list of [ext_key_usage]: a [str] as
    configured, or the [ObjectIdentifier] the validator has put in its
    place. *)
Abbreviation usage_value := (string + oid)%type.

(** The three branches of the normalisation of one element.  The tables are
    keyed by [str], and an [ObjectIdentifier] equals no [str], so it is
    found in neither; [ObjectIdentifier(x)] of an [ObjectIdentifier] is
    that identifier. *)
Definition usage_oid (usage : usage_value) : option oid :=
  match usage with
  | inl s =>
      match EXT_KEY_USAGE_NAMES_INV !! s with
      | Some o => Some o
      | None =>
          match EXT_KEY_USAGE_SHORT_NAMES_INV !! s with
          | Some o => Some o
          | None => ObjectIdentifier s
          end
      end
  | inr o => Some o
  end.

(** [str(usage)] in the text of the failure. *)
Definition usage_str (usage : usage_value) : string :=
  match usage with
  | inl s => s
  | inr o => oid_str o
  end.

(** The loop [for i, usage in enumerate(allowed_usage)], on the list as a
    shared object: [n] iterations are left, the next reads index [i] of
    the list as it is now and writes the same index.  It gives the list as
    the loop leaves it and the exception, if one ended it. *)
Fixpoint normalize_usages (n i : nat) (allowed_usage : list usage_value)
  : list usage_value * option exn :=
  match n with
  | O => (allowed_usage, None)
  | S n' =>
      match allowed_usage !! i with
      | None => (allowed_usage, None)
      | Some usage =>
          match usage_oid usage with
          | Some o => normalize_usages n' (S i) (<[i := inr o]> allowed_usage)
          | None => (allowed_usage, Some (UnknownUsage (usage_str usage)))
          end
      end
  end.

(** The denied identifiers after the loop of [ext_key_usage] over the
    ExtendedKeyUsage extensions. *)
Definition denied_ext_usages (allowed : gset usage_value) (exts : list Extension)
  : gset oid :=
  foldl (fun denied ext =>
           match ext with
           | ExtendedKeyUsage usages =>
               denied ∪ filter (fun o => inr o ∉ allowed) usages
           | _ => denied
           end) ∅ exts.

(** [ext_key_usage] gives its outcome and the [allowed_usage] object as it
    leaves it: the caller's list is rewritten in place. *)
Definition ext_key_usage (csr : CSR) (allowed_usage : option (list usage_value))
  : outcome unit * option (list usage_value) :=
  match allowed_usage with
  | None => (Raise TypeError, None)
  | Some l =>
      let r := normalize_usages (length l) 0 l in
      match r.2 with
      | Some e => (Raise e, Some r.1)
      | None =>
          let allowed : gset usage_value := list_to_set r.1 in
          let denied := denied_ext_usages allowed (get_extensions csr) in
          (if bool_decide (denied = ∅) then Return tt
           else if bool_decide (set_Forall
                                  (fun o => is_Some (EXT_KEY_USAGE_SHORT_NAMES !! o))
                                  denied)
                then Raise (ExtKeyUsageNotAllowed denied)
                else Raise TypeError,
           Some r.1)
      end
  end.

(** The loop of [ca_status]: [request_ca_flags] when it ends. *)
Fixpoint ca_status_loop (ca_requested : bool) (exts : list Extension)
    (request_ca_flags : bool) : outcome bool :=
  match exts with
  | [] => Return request_ca_flags
  | BasicConstraints ca :: rest =>
      if ca then
        raise_if (negb ca_requested) CANotAllowed ;;
        ca_status_loop ca_requested rest true
      else ca_status_loop ca_requested rest request_ca_flags
  | KeyUsage usages :: rest =>
      let has_cert_sign := bool_decide ("keyCertSign" ∈ usages) in
      let has_crl_sign := bool_decide ("cRLSign" ∈ usages) in
      if has_crl_sign || has_cert_sign then
        raise_if (negb ca_requested)
                 (KeyUsageCAMismatch has_cert_sign has_crl_sign) ;;
        ca_status_loop ca_requested rest true
      else ca_status_loop ca_requested rest request_ca_flags
  | _ :: rest => ca_status_loop ca_requested rest request_ca_flags
  end.

Definition ca_status (csr : CSR) (ca_requested : bool) : outcome unit :=
  request_ca_flags ← ca_status_loop ca_requested (get_extensions csr) false;
  raise_if (ca_requested && negb request_ca_flags) CAFlagsRequired.

(** [request.client_addr]. *)
Definition get_client_addr (request : option Request) : outcome Address :=
  match request with
  | Some r => Return (client_addr r)
  | None => Raise AttributeError
  end.

(** The loop of [source_cidrs]; the [try] block gives whether the function
    returns from inside it. *)
Fixpoint source_cidrs_loop (request : option Request) (cidrs : list string)
  : outcome unit :=
  match cidrs with
  | [] => addr ← get_client_addr request; Raise (SourceNotAllowed addr)
  | cidr :: rest =>
      matched ← except_AddrFormatError
                  (r ← new_IPNetwork cidr;
                   addr ← get_client_addr request;
                   Return (net_contains r addr))
                  (Raise (InvalidCIDRConfig cidr));
      if matched : bool then Return tt else source_cidrs_loop request rest
  end.

Definition source_cidrs (request : option Request) (cidrs : option (list string))
  : outcome unit :=
  match cidrs with
  | None => Raise TypeError
  | Some l => source_cidrs_loop request l
  end.

Definition csr_signature (csr : CSR) : outcome unit :=
  match verify csr with
  | Some ok => raise_if (negb ok) InvalidSignature
  | None => Raise InvalidSignature
  end.

(** *** Running a validator

    A call of a validator with the objects passed to it.  [run] gives the
    outcome and the same call with its objects as the validator leaves
    them, ready to be made again. *)
Inductive invocation :=
| Call_common_name (csr : CSR) (allowed_domains allowed_networks : list string)
| Call_alternative_names (csr : CSR) (allowed_domains : list string)
| Call_alternative_names_ip (csr : CSR) (allowed_domains allowed_networks : list string)
| Call_blacklist_names (csr : CSR) (domains : list string)
| Call_server_group (auth_result : option AuthResult) (csr : CSR)
    (group_prefixes : gmap string string)
| Call_extensions (csr : CSR) (allowed_extensions : list string)
| Call_key_usage (csr : CSR) (allowed_usage : option (list string))
| Call_ext_key_usage (csr : CSR) (allowed_usage : option (list usage_value))
| Call_ca_status (csr : CSR) (ca_requested : bool)
| Call_source_cidrs (request : option Request) (cidrs : option (list string))
| Call_csr_signature (csr : CSR).

Definition run (c : invocation) : outcome unit * invocation :=
  match c with
  | Call_common_name csr d n => (common_name csr d n, c)
  | Call_alternative_names csr d => (alternative_names csr d, c)
  | Call_alternative_names_ip csr d n => (alternative_names_ip csr d n, c)
  | Call_blacklist_names csr d => (blacklist_names csr d, c)
  | Call_server_group a csr g => (server_group a csr g, c)
  | Call_extensions csr a => (extensions csr a, c)
  | Call_key_usage csr a => (key_usage csr a, c)
  | Call_ext_key_usage csr a =>
      let r := ext_key_usage csr a in (r.1, Call_ext_key_usage csr r.2)
  | Call_ca_status csr r => (ca_status csr r, c)
  | Call_source_cidrs r cs => (source_cidrs r cs, c)
  | Call_csr_signature csr => (csr_signature csr, c)
  end.

(** *** Notions the properties are stated with *)

(** The values of the DNS-type entries of the subjectAltName extension, in
    order. *)
Definition dns_names (csr : CSR) : list string :=
  flat_map (fun g => match g with
                     | GN_DNS name => [name]
                     | GN_Other t value => if String.eqb t "DNS" then [value] else []
                     | GN_IP _ => []
                     end)
           (alt_entries csr).

(** An extension that signals a certificate authority: BasicConstraints
    with the CA flag, or KeyUsage with keyCertSign or cRLSign. *)
Definition ca_signal (ext : Extension) : bool :=
  match ext with
  | BasicConstraints ca => ca
  | KeyUsage usages =>
      bool_decide ("keyCertSign" ∈ usages) || bool_decide ("cRLSign" ∈ usages)
  | _ => false
  end.

(** The failure of [ca_status] at a CA-signalling extension when no CA was
    requested. *)
Definition ca_refusal (ext : Extension) : exn :=
  match ext with
  | KeyUsage usages =>
      KeyUsageCAMismatch (bool_decide ("keyCertSign" ∈ usages))
                         (bool_decide ("cRLSign" ∈ usages))
  | _ => CANotAllowed
  end.

(** The allowed set of [key_usage]: the configured names, long names
    replaced by the canonical flags. *)
Definition normalized_usage (names : list string) : gset string :=
  list_to_set (map (fun x => default x (LONG_KEY_USAGE_NAMES !! x)) names).

(** The flags carried by the KeyUsage extensions of a request. *)
Definition present_usages (exts : list Extension) : gset string :=
  ⋃ (omap (fun ext => match ext with KeyUsage usages => Some usages | _ => None end)
          exts).

(** A configured CIDR that is a valid network not containing the address. *)
Definition misses (addr : Address) (cidr : string) : Prop :=
  exists net, IPNetwork cidr = Some net /\ net_contains net addr = false.

(** The normalisation of [ext_key_usage] as a transform of the list: the
    list it leaves and the exception it stops with, if any. *)
Fixpoint normalize_pure (l : list usage_value) : list usage_value * option exn :=
  match l with
  | [] => ([], None)
  | usage :: rest =>
      match usage_oid usage with
      | Some o => let r := normalize_pure rest in (inr o :: r.1, r.2)
      | None => (usage :: rest, Some (UnknownUsage (usage_str usage)))
      end
  end.

(** *** Notions the further properties are stated with *)

(** An extension that the whitelist of [extensions] lets through: its name
    or its object identifier, as text, is listed. *)
Definition ext_allowed (allowed_extensions : list string) (ext : Extension)
  : bool :=
  bool_decide (get_name ext ∈ allowed_extensions) ||
  bool_decide (oid_str (get_oid ext) ∈ allowed_extensions).

(** An element of [allowed_usage] after the loop of [ext_key_usage] has
    passed it. *)
Definition rewrite_usage (usage : usage_value) : usage_value :=
  match usage_oid usage with
  | Some o => inr o
  | None => usage
  end.

(** The object identifiers that a configured list stands for. *)
Definition allowed_oids (l : list usage_value) : list oid := omap usage_oid l.

(** A DNS or IP entry that [alternative_names_ip] lets through. *)
Definition entry_passes (allowed_domains allowed_networks : list string)
    (g : general_name) : Prop :=
  match g with
  | GN_DNS name => check_domains name allowed_domains = true
  | GN_IP ip => check_networks ip allowed_networks = Return true
  | GN_Other _ _ => False
  end.

(** Whether a configured CIDR is a valid network containing the address. *)
Definition cidr_contains (addr : Address) (cidr : string) : bool :=
  match IPNetwork cidr with
  | Some net => net_contains net addr
  | None => false
  end.

(** The exception [source_cidrs] ends in at a string that [IPNetwork]
    refuses: its own error if netaddr raised [AddrFormatError], and
    otherwise what netaddr raised. *)
Definition cidr_failure (cidr : string) : exn :=
  match IPNetwork_raises cidr with
  | AddrFormatError => InvalidCIDRConfig cidr
  | e => e
  end.

(** ** Properties *)

Lemma bind_Return {A B} (a : A) (k : A -> outcome B) : Return a ≫= k = k a.
Proof. reflexivity. Qed.

(** When there is exactly one CN the helper returns it. *)
Lemma csr_require_cn_single csr cn :
  get_entries_by_oid OID_commonName csr = [cn] -> csr_require_cn csr = Return cn.
Proof. unfold csr_require_cn. intros ->. reflexivity. Qed.

(** [check_networks] never lets an [AddrFormatError] out. *)
Lemma check_networks_no_AddrFormatError ip nets :
  check_networks ip nets <> Raise AddrFormatError.
Proof.
  induction nets as [|net rest IH]; simpl; [discriminate|].
  destruct (IPNetwork net) as [r|]; [|discriminate].
  destruct (net_contains r ip); [discriminate | exact IH].
Qed.

(** With only valid networks, none of which contains the address, the
    answer of [check_networks] is no. *)
Lemma check_networks_none ip nets :
  Forall (fun net => exists r, IPNetwork net = Some r /\ net_contains r ip = false) nets ->
  check_networks ip nets = Return false.
Proof.
  induction 1 as [|net rest (r & Hr & Hc) _ IH]; simpl; [reflexivity|].
  rewrite Hr, Hc. exact IH.
Qed.

(** [common_name] with exactly one CN: the two checks before the
    classification pass. *)
Lemma common_name_single csr cn doms nets :
  get_entries_by_oid OID_commonName csr = [cn] ->
  common_name csr doms nets =
  except_AddrFormatError
    (ip ← new_IPAddress cn;
     ok ← check_networks ip nets;
     raise_if (negb ok) (NetworkNotAllowed cn))
    (raise_if (negb (check_domains cn doms)) (DomainNotAllowed cn)).
Proof.
  intros H. unfold common_name. rewrite (csr_require_cn_single _ _ H), H.
  reflexivity.
Qed.

(** C1. commonName with exactly one CN classifies it IP-first.  If the CN
    parses as an address, the outcome is that of the network check alone:
    acceptance if a network contains it, NetworkNotAllowed if none does,
    and the allowed domains play no part.  If netaddr refuses the CN with
    [AddrFormatError], the outcome is that of DomainMatch alone: acceptance
    on a match, DomainNotAllowed otherwise, and the allowed networks play no
    part.  If netaddr refuses the CN with another exception, as it does
    with [ValueError] for a CN with a slash, the [except] clause does not
    catch it: the validator ends in that exception, whatever the allowed
    domains and networks are, and the CN is not domain-checked. *)
Theorem common_name_ip_first csr cn doms nets :
  get_entries_by_oid OID_commonName csr = [cn] ->
  (forall ip, IPAddress cn = Some ip ->
     common_name csr doms nets =
       (ok ← check_networks ip nets; raise_if (negb ok) (NetworkNotAllowed cn)) /\
     (check_networks ip nets = Return true -> common_name csr doms nets = Return tt) /\
     (check_networks ip nets = Return false ->
        common_name csr doms nets = Raise (NetworkNotAllowed cn)) /\
     (Forall (fun net => exists r, IPNetwork net = Some r /\ net_contains r ip = false)
             nets ->
        common_name csr doms nets = Raise (NetworkNotAllowed cn)) /\
     (forall doms', common_name csr doms' nets = common_name csr doms nets)) /\
  (IPAddress cn = None -> IPAddress_raises cn = AddrFormatError ->
     common_name csr doms nets =
       raise_if (negb (check_domains cn doms)) (DomainNotAllowed cn) /\
     (check_domains cn doms = true -> common_name csr doms nets = Return tt) /\
     (check_domains cn doms = false ->
        common_name csr doms nets = Raise (DomainNotAllowed cn)) /\
     (forall nets', common_name csr doms nets' = common_name csr doms nets)) /\
  (IPAddress cn = None -> IPAddress_raises cn <> AddrFormatError ->
     forall doms' nets',
       common_name csr doms' nets' = Raise (IPAddress_raises cn)).
Proof.
  intros Hcn.
  assert (Hip : forall ip d, IPAddress cn = Some ip ->
            common_name csr d nets =
            (ok ← check_networks ip nets; raise_if (negb ok) (NetworkNotAllowed cn))).
  { intros ip d Hp. rewrite (common_name_single _ _ _ _ Hcn).
    unfold new_IPAddress. rewrite Hp. rewrite bind_Return.
    pose proof (check_networks_no_AddrFormatError ip nets) as Hno.
    destruct (check_networks ip nets) as [[]|e]; simpl; try reflexivity.
    destruct e; try reflexivity. contradiction. }
  assert (Hdom : forall n, IPAddress cn = None ->
            IPAddress_raises cn = AddrFormatError ->
            common_name csr doms n =
            raise_if (negb (check_domains cn doms)) (DomainNotAllowed cn)).
  { intros n Hp He. rewrite (common_name_single _ _ _ _ Hcn).
    unfold new_IPAddress. rewrite Hp, He. reflexivity. }
  split; [|split].
  - intros ip Hp. rewrite (Hip ip doms Hp). repeat split.
    + intros ->. reflexivity.
    + intros ->. reflexivity.
    + intros Hall. rewrite (check_networks_none _ _ Hall). reflexivity.
    + intros doms'. apply (Hip ip doms' Hp).
  - intros Hp He. rewrite (Hdom nets Hp He). repeat split.
    + intros ->. reflexivity.
    + intros ->. reflexivity.
    + intros nets'. apply (Hdom nets' Hp He).
  - intros Hp He doms' nets'. rewrite (common_name_single _ _ _ _ Hcn).
    unfold new_IPAddress. rewrite Hp. cbn.
    destruct (IPAddress_raises cn); try reflexivity. contradiction.
Qed.

(** C2. commonName fails with TooManyCN whenever there is more than one CN,
    whatever the entries and the extensions; with no CN it fails with
    NoSubjectIdentity when no extension is named subjectAltName, and accepts
    when one is. *)
Theorem common_name_cn_count csr doms nets :
  ((1 < length (get_entries_by_oid OID_commonName csr))%nat ->
     common_name csr doms nets = Raise TooManyCN) /\
  (get_entries_by_oid OID_commonName csr = [] ->
     Forall (fun ext => get_name ext <> "subjectAltName") (get_extensions csr) ->
     common_name csr doms nets = Raise NoSubjectIdentity) /\
  (get_entries_by_oid OID_commonName csr = [] ->
     Exists (fun ext => get_name ext = "subjectAltName") (get_extensions csr) ->
     common_name csr doms nets = Return tt).
Proof.
  unfold common_name. repeat split.
  - intros Hlen. apply Nat.ltb_lt in Hlen. rewrite Hlen. reflexivity.
  - intros -> Hall. simpl.
    replace (existsb _ _) with false; [reflexivity|].
    symmetry. apply not_true_is_false. intros Hex.
    apply existsb_exists in Hex as (ext & Hin & Heq).
    apply String.eqb_eq in Heq.
    rewrite Forall_forall in Hall. apply (Hall ext); [|exact Heq].
    apply list_elem_of_In. exact Hin.
  - intros -> Hex. simpl.
    replace (existsb _ _) with true; [reflexivity|].
    symmetry. apply existsb_exists.
    apply Exists_exists in Hex as (ext & Hin & Heq).
    exists ext. split; [apply list_elem_of_In; exact Hin|].
    apply String.eqb_eq. exact Heq.
Qed.

(** A loop that raises on the items failing a test stops at the first of
    them. *)
Lemma for_each_raise_if {A} (bad : A -> bool) (err : A -> exn) (l : list A) :
  for_each (fun x => raise_if (bad x) (err x)) l =
  match find bad l with
  | Some x => Raise (err x)
  | None => Return tt
  end.
Proof.
  induction l as [|x l IH]; simpl; [reflexivity|].
  destruct (bad x); simpl; [reflexivity | exact IH].
Qed.

Lemma elem_of_DNS (t : string) : t ∈ ["DNS"] <-> t = "DNS".
Proof. apply list_elem_of_singleton. Qed.

(** Without [fail_other_types], the helper asked for DNS entries yields
    them all and does not fail, and the loop of [alternative_names] over it
    is a loop over their names. *)
Lemma alternative_names_loop doms (es : list general_name) :
  for_gen
    (fun g =>
       name ← name_of g;
       raise_if (negb (check_domains name doms)) (AltDomainNotAllowed name))
    (iter_entries ["DNS"] false es) =
  for_each
    (fun name => raise_if (negb (check_domains name doms)) (AltDomainNotAllowed name))
    (flat_map (fun g => match g with
                        | GN_DNS name => [name]
                        | GN_Other t value =>
                            if String.eqb t "DNS" then [value] else []
                        | GN_IP _ => []
                        end) es).
Proof.
  unfold for_gen. induction es as [|g es IH]; [reflexivity|].
  cbn [iter_entries flat_map].
  destruct g as [name|ip|t value].
  - rewrite bool_decide_eq_true_2 by (apply elem_of_DNS; reflexivity).
    cbn [fst snd for_each name_of app]. rewrite bind_Return.
    destruct (raise_if _ _) as [[]|e]; [|reflexivity].
    rewrite !bind_Return. exact IH.
  - rewrite bool_decide_eq_false_2
      by (rewrite elem_of_DNS; cbn; discriminate).
    exact IH.
  - cbn [name_type]. destruct (String.eqb_spec t "DNS") as [->|Hne].
    + rewrite bool_decide_eq_true_2 by (apply elem_of_DNS; reflexivity).
      cbn [fst snd for_each name_of app]. rewrite bind_Return.
      destruct (raise_if _ _) as [[]|e]; [|reflexivity].
      rewrite !bind_Return. exact IH.
    + rewrite bool_decide_eq_false_2
        by (rewrite elem_of_DNS; cbn; exact Hne).
      exact IH.
Qed.

(** C3. alternativeNames checks the DNS-type entries of the subjectAltName
    extension in order with DomainMatch and fails with DomainNotAllowed at
    the first that does not match; entries of other types are ignored: the
    outcome depends on the DNS entries only, every failure is a
    DomainNotAllowed of a DNS entry, and a request whose entries are all of
    other types is accepted. *)
Theorem alternative_names_dns_only csr doms :
  alternative_names csr doms =
    match find (fun name => negb (check_domains name doms)) (dns_names csr) with
    | Some name => Raise (AltDomainNotAllowed name)
    | None => Return tt
    end /\
  (forall csr', dns_names csr' = dns_names csr ->
     alternative_names csr' doms = alternative_names csr doms) /\
  (forall e, alternative_names csr doms = Raise e ->
     exists name, name ∈ dns_names csr /\ check_domains name doms = false /\
                  e = AltDomainNotAllowed name) /\
  (Forall (fun g => name_type g <> "DNS") (alt_entries csr) ->
     alternative_names csr doms = Return tt).
Proof.
  assert (Hchar : forall c, alternative_names c doms =
            match find (fun name => negb (check_domains name doms)) (dns_names c) with
            | Some name => Raise (AltDomainNotAllowed name)
            | None => Return tt
            end).
  { intros c. unfold alternative_names, alternative_names_with,
      iter_alternative_names, fail_other_types_default.
    rewrite alternative_names_loop.
    apply (for_each_raise_if (fun name => negb (check_domains name doms))
                             AltDomainNotAllowed). }
  split; [apply Hchar|]. split; [|split].
  - intros csr' Heq. rewrite !Hchar, Heq. reflexivity.
  - intros e. rewrite Hchar.
    destruct (find _ (dns_names csr)) as [name|] eqn:Hf; [|discriminate].
    intros [= <-]. apply find_some in Hf as [Hin Hbad].
    exists name. split; [apply list_elem_of_In; exact Hin|].
    split; [apply negb_true_iff; exact Hbad | reflexivity].
  - intros Hall. rewrite Hchar.
    replace (dns_names csr) with (@nil string); [reflexivity|].
    unfold dns_names. induction Hall as [|g es Hg _ IH]; [reflexivity|].
    cbn [flat_map]. rewrite <- IH.
    destruct g as [name|ip|t value]; cbn in Hg |- *; try congruence.
    destruct (String.eqb_spec t "DNS"); [contradiction | reflexivity].
Qed.

(** The loop of [ca_status] when no CA was requested: it stops at the first
    CA-signalling extension and otherwise leaves the flag as it was. *)
Lemma ca_status_loop_not_requested exts flags :
  ca_status_loop false exts flags =
  match find ca_signal exts with
  | Some ext => Raise (ca_refusal ext)
  | None => Return flags
  end.
Proof.
  revert flags. induction exts as [|ext exts IH]; intros flags; [reflexivity|].
  destruct ext as [es|ca|usages|usages|o n]; cbn [ca_status_loop find ca_signal];
    try apply IH.
  - destruct ca; [reflexivity | apply IH].
  - rewrite (orb_comm (bool_decide ("keyCertSign" ∈ usages))).
    destruct (_ || _); [reflexivity | apply IH].
Qed.

(** The loop of [ca_status] when a CA was requested: it never fails, and
    the flag is raised by any CA-signalling extension. *)
Lemma ca_status_loop_requested exts flags :
  ca_status_loop true exts flags = Return (flags || existsb ca_signal exts).
Proof.
  revert flags. induction exts as [|ext exts IH]; intros flags;
    [cbn; rewrite orb_false_r; reflexivity|].
  destruct ext as [es|ca|usages|usages|o n];
    cbn [ca_status_loop existsb ca_signal raise_if negb]; rewrite ?bind_Return;
    try (rewrite IH; reflexivity).
  - destruct ca; rewrite IH; cbn; [rewrite orb_true_r|]; reflexivity.
  - rewrite (orb_comm (bool_decide ("keyCertSign" ∈ usages))).
    destruct (_ || _); cbn [raise_if]; rewrite ?bind_Return, IH; cbn;
      [rewrite orb_true_r|]; reflexivity.
Qed.

(** C4 (amended). caStatus scans the extensions in order.  When no CA is
    requested it fails at the first CA-signalling extension, with
    CANotAllowed if that is a BasicConstraints with isCA and with
    KeyUsageCAMismatch if it is a KeyUsage with keyCertSign or cRLSign, and
    accepts if there is none.  When a CA is requested it accepts if some
    extension signals a CA and fails with CAFlagsRequired otherwise. *)
Theorem ca_status_first_signal csr ca_requested :
  ca_status csr ca_requested =
    match find ca_signal (get_extensions csr), ca_requested with
    | Some ext, false => Raise (ca_refusal ext)
    | Some _, true => Return tt
    | None, false => Return tt
    | None, true => Raise CAFlagsRequired
    end /\
  (forall pre post,
     get_extensions csr = (pre ++ BasicConstraints true :: post)%list ->
     Forall (fun ext => ca_signal ext = false) pre ->
     ca_status csr false = Raise CANotAllowed) /\
  (forall pre usages post,
     get_extensions csr = (pre ++ KeyUsage usages :: post)%list ->
     "keyCertSign" ∈ usages \/ "cRLSign" ∈ usages ->
     Forall (fun ext => ca_signal ext = false) pre ->
     ca_status csr false =
       Raise (KeyUsageCAMismatch (bool_decide ("keyCertSign" ∈ usages))
                                 (bool_decide ("cRLSign" ∈ usages)))).
Proof.
  assert (Hchar : forall req, ca_status csr req =
            match find ca_signal (get_extensions csr), req with
            | Some ext, false => Raise (ca_refusal ext)
            | Some _, true => Return tt
            | None, false => Return tt
            | None, true => Raise CAFlagsRequired
            end).
  { intros [|]; unfold ca_status.
    - rewrite ca_status_loop_requested. cbn.
      destruct (find ca_signal (get_extensions csr)) as [ext|] eqn:Hf.
      + apply find_some in Hf as [Hin Hs].
        replace (existsb _ _) with true; [reflexivity|].
        symmetry. apply existsb_exists. eauto.
      + replace (existsb _ _) with false; [reflexivity|].
        symmetry. apply not_true_is_false. intros Hex.
        apply existsb_exists in Hex as (ext & Hin & Hs).
        rewrite (find_none _ _ Hf ext Hin) in Hs. discriminate.
    - rewrite ca_status_loop_not_requested.
      destruct (find ca_signal (get_extensions csr)); reflexivity. }
  assert (Hfind : forall pre ext post,
            Forall (fun ext => ca_signal ext = false) pre -> ca_signal ext = true ->
            find ca_signal (pre ++ ext :: post)%list = Some ext).
  { intros pre ext post Hpre Hs.
    induction Hpre as [|x pre Hx _ IH]; cbn; [rewrite Hs; reflexivity|].
    rewrite Hx. exact IH. }
  split; [apply Hchar|]. split.
  - intros pre post Hexts Hpre. rewrite Hchar, Hexts.
    rewrite (Hfind pre (BasicConstraints true) post Hpre eq_refl). reflexivity.
  - intros pre usages post Hexts Hu Hpre. rewrite Hchar, Hexts.
    rewrite (Hfind pre (KeyUsage usages) post Hpre); [reflexivity|].
    cbn. apply orb_true_iff.
    destruct Hu as [Hu|Hu]; [left|right]; apply bool_decide_eq_true_2; exact Hu.
Qed.

(** The accumulator of [key_usage] holds what it held before the loop and
    the flags outside the allowed set of every KeyUsage extension. *)
Lemma elem_of_denied_fold allowed exts (acc : gset string) f :
  f ∈ foldl (fun denied ext =>
               match ext with
               | KeyUsage usages => denied ∪ (usages ∖ allowed)
               | _ => denied
               end) acc exts <->
  f ∈ acc \/ exists usages, KeyUsage usages ∈ exts /\ f ∈ usages /\ f ∉ allowed.
Proof.
  revert acc. induction exts as [|ext exts IH]; intros acc; cbn [foldl].
  - split; [auto|]. intros [H|(u & Hin & _)]; [exact H|].
    apply elem_of_nil in Hin. contradiction.
  - rewrite IH. split.
    + intros [Hacc|(u & Hin & Hu)].
      * destruct ext; auto.
        apply elem_of_union in Hacc as [Hacc|Hd]; [auto|].
        apply elem_of_difference in Hd as [Hf Hn].
        right. eexists. split; [apply list_elem_of_here | auto].
      * right. exists u. split; [apply list_elem_of_further; exact Hin | exact Hu].
    + intros [Hacc|(u & Hin & Hf & Hn)].
      * left. destruct ext; auto. apply elem_of_union. auto.
      * apply elem_of_cons in Hin as [<-|Hin].
        -- left. apply elem_of_union. right. apply elem_of_difference. auto.
        -- right. eauto.
Qed.

Lemma elem_of_denied_usages allowed exts f :
  f ∈ denied_usages allowed exts <->
  exists usages, KeyUsage usages ∈ exts /\ f ∈ usages /\ f ∉ allowed.
Proof.
  unfold denied_usages. rewrite elem_of_denied_fold. split; [|auto].
  intros [H|H]; [|exact H]. apply not_elem_of_empty in H. contradiction.
Qed.

Lemma elem_of_normalized_usage names f :
  f ∈ normalized_usage names <->
  exists x, x ∈ names /\ f = default x (LONG_KEY_USAGE_NAMES !! x).
Proof.
  unfold normalized_usage. rewrite elem_of_list_to_set, list_elem_of_fmap.
  split; intros (x & H1 & H2); exists x; auto.
Qed.

Lemma elem_of_present_usages exts f :
  f ∈ present_usages exts <-> exists usages, KeyUsage usages ∈ exts /\ f ∈ usages.
Proof.
  unfold present_usages. rewrite elem_of_union_list. split.
  - intros (u & Hin & Hf). apply list_elem_of_omap in Hin as (ext & Hext & Hu).
    destruct ext; try discriminate. injection Hu as ->. eauto.
  - intros (u & Hin & Hf). exists u. split; [|exact Hf].
    apply list_elem_of_omap. exists (KeyUsage u). auto.
Qed.

(** [key_usage] with a configured list, in terms of the denied set. *)
Lemma key_usage_Some csr names :
  key_usage csr (Some names) =
  let denied := denied_usages (normalized_usage names) (get_extensions csr) in
  if decide (denied = ∅) then Return tt else Raise (KeyUsageNotAllowed denied).
Proof.
  unfold key_usage. fold (normalized_usage names). cbn zeta.
  destruct (decide (_ = ∅)) as [He|Hne].
  - rewrite bool_decide_eq_true_2 by exact He. reflexivity.
  - rewrite bool_decide_eq_false_2 by exact Hne. reflexivity.
Qed.

(** C5. keyUsage normalises the allowed names, collects over all the
    KeyUsage extensions the flags outside the allowed set, and after the
    scan fails with KeyUsageNotAllowed naming exactly those flags if there
    are any; it accepts iff every flag of every KeyUsage extension is
    allowed. *)
Theorem key_usage_denied csr names :
  let allowed := normalized_usage names in
  let denied := denied_usages allowed (get_extensions csr) in
  (forall f, f ∈ allowed <->
             exists x, x ∈ names /\ f = default x (LONG_KEY_USAGE_NAMES !! x)) /\
  (forall f, f ∈ denied <->
             exists usages, KeyUsage usages ∈ get_extensions csr /\
                            f ∈ usages /\ f ∉ allowed) /\
  key_usage csr (Some names) =
    (if decide (denied = ∅) then Return tt else Raise (KeyUsageNotAllowed denied)) /\
  (key_usage csr (Some names) = Return tt <->
   forall usages, KeyUsage usages ∈ get_extensions csr -> usages ⊆ allowed).
Proof.
  intros allowed denied.
  split; [intros f; apply elem_of_normalized_usage|].
  split; [intros f; apply elem_of_denied_usages|].
  split; [apply key_usage_Some|].
  rewrite key_usage_Some. cbn zeta. fold allowed. fold denied.
  destruct (decide (denied = ∅)) as [He|Hne]; split.
  - intros _ usages Hin f Hf. destruct (decide (f ∈ allowed)) as [|Hn]; [assumption|].
    assert (Hd : f ∈ denied) by (apply elem_of_denied_usages; eauto).
    rewrite He in Hd. apply not_elem_of_empty in Hd. contradiction.
  - reflexivity.
  - discriminate.
  - intros Hall. exfalso. apply Hne. apply elem_of_equiv_empty_L. intros f Hd.
    apply elem_of_denied_usages in Hd as (u & Hin & Hf & Hn).
    apply Hn. apply (Hall u Hin f Hf).
Qed.

(** C8 (amended). The default of [allowed_usage] is [None], not an empty
    list: with the configuration omitted keyUsage raises a [TypeError] for
    every request, before any extension is looked at.  With an empty list
    passed it accepts a request whose KeyUsage extensions carry no flag (in
    particular one without such an extension), and otherwise fails with
    KeyUsageNotAllowed naming all the flags present. *)
Theorem key_usage_omitted_config csr :
  key_usage csr None = Raise TypeError /\
  (present_usages (get_extensions csr) = ∅ -> key_usage csr (Some []) = Return tt) /\
  ((forall usages, KeyUsage usages ∉ get_extensions csr) ->
     key_usage csr (Some []) = Return tt) /\
  (present_usages (get_extensions csr) <> ∅ ->
     key_usage csr (Some []) =
       Raise (KeyUsageNotAllowed (present_usages (get_extensions csr)))).
Proof.
  assert (Hd : denied_usages (normalized_usage []) (get_extensions csr) =
               present_usages (get_extensions csr)).
  { apply set_eq. intros f.
    rewrite elem_of_denied_usages, elem_of_present_usages.
    split; intros (u & Hin & H); exists u.
    - destruct H as [H _]. split; assumption.
    - split; [exact Hin|]. split; [exact H|].
      rewrite elem_of_normalized_usage. intros (x & Hx & _).
      apply elem_of_nil in Hx. contradiction. }
  split; [reflexivity|]. rewrite key_usage_Some. cbn zeta. rewrite Hd.
  split; [|split].
  - intros ->. reflexivity.
  - intros Hno. replace (present_usages _) with (∅ : gset string); [reflexivity|].
    symmetry. apply elem_of_equiv_empty_L. intros f Hf.
    apply elem_of_present_usages in Hf as (u & Hin & _). exact (Hno u Hin).
  - intros Hne. destruct (decide _) as [He|_]; [contradiction | reflexivity].
Qed.

(** The loop of [source_cidrs] passes over the networks that do not contain
    the client address. *)
Lemma source_cidrs_loop_skip r (pre rest : list string) :
  Forall (misses (client_addr r)) pre ->
  source_cidrs_loop (Some r) (pre ++ rest)%list = source_cidrs_loop (Some r) rest.
Proof.
  induction 1 as [|cidr pre (net & Hnet & Hc) _ IH]; [reflexivity|].
  cbn [app source_cidrs_loop]. unfold new_IPNetwork. rewrite Hnet.
  cbn. rewrite Hc. exact IH.
Qed.

(** C6. sourceCIDRs walks the configured list in order: it accepts at the
    first CIDR containing the client address, whatever follows; it fails
    with SourceNotAllowed when the whole list is walked without a match;
    and at a string for which netaddr raises [AddrFormatError], reached
    before any match, it fails with InvalidCIDRConfig, whatever follows, a
    matching CIDR included.  At a string that netaddr refuses with another
    exception, as it does with [ValueError] for a second slash, the [except]
    clause does not catch it and the validator ends in that exception. *)
Theorem source_cidrs_in_order (r : Request) (pre : list string) :
  Forall (misses (client_addr r)) pre ->
  (forall cidr net post,
     IPNetwork cidr = Some net -> net_contains net (client_addr r) = true ->
     source_cidrs (Some r) (Some (pre ++ cidr :: post)%list) = Return tt) /\
  source_cidrs (Some r) (Some pre) = Raise (SourceNotAllowed (client_addr r)) /\
  (forall cidr post,
     IPNetwork cidr = None -> IPNetwork_raises cidr = AddrFormatError ->
     source_cidrs (Some r) (Some (pre ++ cidr :: post)%list) =
       Raise (InvalidCIDRConfig cidr)) /\
  (forall cidr post,
     IPNetwork cidr = None -> IPNetwork_raises cidr <> AddrFormatError ->
     source_cidrs (Some r) (Some (pre ++ cidr :: post)%list) =
       Raise (IPNetwork_raises cidr)).
Proof.
  intros Hpre. unfold source_cidrs. repeat split.
  - intros cidr net post Hnet Hc. rewrite (source_cidrs_loop_skip _ _ _ Hpre).
    cbn [source_cidrs_loop]. unfold new_IPNetwork. rewrite Hnet. cbn.
    rewrite Hc. reflexivity.
  - rewrite <- (app_nil_r pre) at 1. rewrite (source_cidrs_loop_skip _ _ _ Hpre).
    reflexivity.
  - intros cidr post Hnet He. rewrite (source_cidrs_loop_skip _ _ _ Hpre).
    cbn [source_cidrs_loop]. unfold new_IPNetwork. rewrite Hnet, He. reflexivity.
  - intros cidr post Hnet He. rewrite (source_cidrs_loop_skip _ _ _ Hpre).
    cbn [source_cidrs_loop]. unfold new_IPNetwork. rewrite Hnet. cbn.
    destruct (IPNetwork_raises cidr); try reflexivity. contradiction.
Qed.

(** [split] on a string without the separator gives the string itself. *)
Lemma split_without c s : Str.contains c s = false -> Str.split c s = [s].
Proof.
  induction s as [|a s IH]; cbn [Str.split Str.contains]; [reflexivity|].
  destruct (Ascii.eqb a c); [discriminate|]. intros H. rewrite (IH H). reflexivity.
Qed.

(** [split] cuts at the first separator. *)
Lemma split_at_first c prefix rest :
  Str.contains c prefix = false ->
  Str.split c (prefix ++ String c rest) = prefix :: Str.split c rest.
Proof.
  induction prefix as [|a p IH]; simpl.
  - rewrite Ascii.eqb_refl. reflexivity.
  - destruct (Ascii.eqb a c); [discriminate|]. intros H. rewrite (IH H). reflexivity.
Qed.

Lemma split_not_nil c s : Str.split c s <> [].
Proof.
  destruct s as [|a s]; cbn [Str.split]; [discriminate|].
  destruct (Ascii.eqb a c); [discriminate|]. destruct (Str.split c s); discriminate.
Qed.

(** [server_group] on a CN made of a prefix without dash, a dash and a
    rest: past the test on the pfx. *)
Lemma server_group_prefix auth csr gp pfx rest :
  get_entries_by_oid OID_commonName csr = [pfx ++ "-" ++ rest] ->
  Str.contains "-" pfx = false ->
  server_group auth csr gp =
  if Str.contains "." pfx then Return tt
  else match gp !! pfx with
       | Some group =>
           match auth with
           | None => Raise AttributeError
           | Some a => raise_if (negb (bool_decide (group ∈ groups a))) GroupMismatch
           end
       | None => Return tt
       end.
Proof.
  intros Hcn Hp. unfold server_group.
  rewrite (csr_require_cn_single _ _ Hcn), bind_Return.
  change (pfx ++ "-" ++ rest) with (pfx ++ String "-" rest).
  rewrite (split_at_first _ _ _ Hp). cbn [hd length].
  pose proof (split_not_nil "-" rest) as Hne.
  destruct (Str.split "-" rest) as [|x l]; [contradiction|]. reflexivity.
Qed.

(** C7. serverGroup on a request whose single CN is a prefix without dash
    or dot, a dash and a rest fails with GroupMismatch iff the prefix is a
    key of groupPrefixes whose group is not among the requester's groups,
    and otherwise accepts.  It does nothing when the CN has no dash, when
    the part before the first dash has a dot, or when that part is not a
    key of groupPrefixes. *)
Theorem server_group_prefix_check csr cn gp :
  get_entries_by_oid OID_commonName csr = [cn] ->
  (forall a pfx rest,
     cn = pfx ++ "-" ++ rest -> Str.contains "-" pfx = false ->
     Str.contains "." pfx = false ->
     (server_group (Some a) csr gp = Raise GroupMismatch <->
      exists group, gp !! pfx = Some group /\ group ∉ groups a) /\
     (server_group (Some a) csr gp = Return tt <->
      ~ exists group, gp !! pfx = Some group /\ group ∉ groups a)) /\
  (forall auth, Str.contains "-" cn = false -> server_group auth csr gp = Return tt) /\
  (forall auth pfx rest,
     cn = pfx ++ "-" ++ rest -> Str.contains "-" pfx = false ->
     Str.contains "." pfx = true -> server_group auth csr gp = Return tt) /\
  (forall auth pfx rest,
     cn = pfx ++ "-" ++ rest -> Str.contains "-" pfx = false ->
     gp !! pfx = None -> server_group auth csr gp = Return tt).
Proof.
  intros Hcn. split; [|repeat split].
  - intros a pfx rest -> Hp Hdot.
    rewrite (server_group_prefix _ _ _ _ _ Hcn Hp), Hdot.
    destruct (gp !! pfx) as [group|].
    + destruct (decide (group ∈ groups a)) as [Hin|Hout].
      * rewrite bool_decide_eq_true_2 by exact Hin. cbn. split; split.
        -- discriminate.
        -- intros (g & [= <-] & Hout). contradiction.
        -- intros _ (g & [= <-] & Hout). contradiction.
        -- reflexivity.
      * rewrite bool_decide_eq_false_2 by exact Hout. cbn. split; split.
        -- eauto.
        -- reflexivity.
        -- discriminate.
        -- intros Hno. exfalso. apply Hno. eauto.
    + split; split.
      * discriminate.
      * intros (g & [=] & _).
      * intros _ (g & [=] & _).
      * reflexivity.
  - intros auth Hno. unfold server_group.
    rewrite (csr_require_cn_single _ _ Hcn), bind_Return.
    rewrite (split_without _ _ Hno). reflexivity.
  - intros auth pfx rest -> Hp Hdot.
    rewrite (server_group_prefix _ _ _ _ _ Hcn Hp), Hdot. reflexivity.
  - intros auth pfx rest -> Hp Hkey.
    rewrite (server_group_prefix _ _ _ _ _ Hcn Hp), Hkey.
    destruct (Str.contains "." pfx); reflexivity.
Qed.

(** C10. serverGroup asks for the single CN before it looks at any prefix:
    a request without CN fails with NoCN and a request with several fails
    with TooManyCN, whatever groupPrefixes holds, the empty map included;
    it can only accept a request with exactly one CN. *)
Theorem server_group_requires_cn auth csr gp :
  (get_entries_by_oid OID_commonName csr = [] ->
     server_group auth csr gp = Raise NoCN) /\
  ((1 < length (get_entries_by_oid OID_commonName csr))%nat ->
     server_group auth csr gp = Raise RequireSingleCN_TooManyCN) /\
  (server_group auth csr gp = Return tt ->
     exists cn, get_entries_by_oid OID_commonName csr = [cn]).
Proof.
  unfold server_group, csr_require_cn.
  destruct (get_entries_by_oid OID_commonName csr) as [|cn [|cn' l]]; cbn;
    repeat split; intros; try lia; try discriminate; try reflexivity; eauto.
Qed.

(** The loop of [ext_key_usage] that rewrites the list in place, started
    past the elements already rewritten, does to the rest what
    [normalize_pure] does. *)
Lemma normalize_usages_pure (done rest : list usage_value) :
  normalize_usages (length rest) (length done) (done ++ rest)%list =
  ((done ++ (normalize_pure rest).1)%list, (normalize_pure rest).2).
Proof.
  revert done. induction rest as [|usage rest IH]; intros done; [reflexivity|].
  cbn [length normalize_usages normalize_pure].
  rewrite list_lookup_middle by reflexivity.
  destruct (usage_oid usage) as [o|]; [|reflexivity].
  replace (<[length done := inr o]> (done ++ usage :: rest)%list)
    with ((done ++ [inr o]) ++ rest)%list.
  - replace (S (length done)) with (length (done ++ [inr o : usage_value])%list)
      by (rewrite length_app; cbn; lia).
    rewrite IH. cbn [fst snd]. rewrite <- app_assoc. reflexivity.
  - rewrite <- app_assoc. cbn [app].
    rewrite insert_app_r_alt by lia. rewrite Nat.sub_diag. reflexivity.
Qed.

Lemma normalize_usages_whole (l : list usage_value) :
  normalize_usages (length l) 0 l = normalize_pure l.
Proof.
  pose proof (normalize_usages_pure [] l) as H. cbn [app length] in H.
  rewrite H. destruct (normalize_pure l); reflexivity.
Qed.

(** Normalising a list that has been normalised leaves it as it is and
    stops with the same exception, if any. *)
Lemma normalize_pure_again (l : list usage_value) :
  normalize_pure (normalize_pure l).1 = normalize_pure l.
Proof.
  induction l as [|usage rest IH]; [reflexivity|].
  cbn [normalize_pure]. destruct (usage_oid usage) as [o|] eqn:Hu.
  - cbn [fst snd normalize_pure usage_oid]. rewrite IH. reflexivity.
  - cbn [fst normalize_pure]. rewrite Hu. reflexivity.
Qed.

(** A second call of [ext_key_usage] on the list the first call left gives
    the same outcome and leaves the list as it found it. *)
Lemma ext_key_usage_again csr a :
  ext_key_usage csr (ext_key_usage csr a).2 = ext_key_usage csr a.
Proof.
  destruct a as [l|]; [|reflexivity].
  assert (Hst : (ext_key_usage csr (Some l)).2 = Some (normalize_pure l).1).
  { unfold ext_key_usage. rewrite normalize_usages_whole.
    destruct (normalize_pure l).2; reflexivity. }
  rewrite Hst. unfold ext_key_usage.
  rewrite !normalize_usages_whole, normalize_pure_again. reflexivity.
Qed.

(** C9. Running a validator again on the same request, with its
    configuration objects as the first run left them, gives the same
    outcome and leaves the objects as they are.  Only extKeyUsage changes an
    object it is given: its first run rewrites the allowedUsage list in
    place, and its second run, on the rewritten list, has the outcome of the
    first. *)
Theorem run_twice_same_outcome (c : invocation) :
  (run (run c).2).1 = (run c).1 /\
  (run (run c).2).2 = (run c).2 /\
  ((forall csr a, c <> Call_ext_key_usage csr a) -> (run c).2 = c) /\
  (forall csr a,
     (ext_key_usage csr (ext_key_usage csr a).2).1 = (ext_key_usage csr a).1).
Proof.
  split; [|split; [|split]].
  - destruct c; try reflexivity. cbn. rewrite ext_key_usage_again. reflexivity.
  - destruct c; try reflexivity. cbn. rewrite ext_key_usage_again. reflexivity.
  - intros Hne. destruct c; try reflexivity. exfalso. eapply Hne. reflexivity.
  - intros csr a. rewrite ext_key_usage_again. reflexivity.
Qed.

(** *** Further properties: [extensions] *)

Lemma extensions_find csr allowed :
  extensions csr allowed =
  match find (fun ext => negb (ext_allowed allowed ext)) (get_extensions csr) with
  | Some ext => Raise (ExtensionNotAllowed (get_name ext))
  | None => Return tt
  end.
Proof.
  unfold extensions.
  rewrite <- (for_each_raise_if (fun ext => negb (ext_allowed allowed ext))
                (fun ext => ExtensionNotAllowed (get_name ext))).
  induction (get_extensions csr) as [|ext l IH]; [reflexivity|].
  cbn [for_each]. rewrite IH. unfold ext_allowed. rewrite negb_orb. reflexivity.
Qed.

Lemma ext_allowed_spec allowed ext :
  ext_allowed allowed ext = true <->
  get_name ext ∈ allowed \/ oid_str (get_oid ext) ∈ allowed.
Proof.
  unfold ext_allowed. rewrite orb_true_iff, !bool_decide_eq_true. reflexivity.
Qed.

(** X1. extensions accepts a request iff every one of its extensions is
    listed by name or by object identifier; otherwise it fails at the first
    extension that is not, naming it. *)
Theorem extensions_whitelist csr allowed :
  (extensions csr allowed = Return tt <->
   forall ext, ext ∈ get_extensions csr ->
     get_name ext ∈ allowed \/ oid_str (get_oid ext) ∈ allowed) /\
  (forall pre ext post,
     get_extensions csr = (pre ++ ext :: post)%list ->
     Forall (fun e => ext_allowed allowed e = true) pre ->
     ext_allowed allowed ext = false ->
     extensions csr allowed = Raise (ExtensionNotAllowed (get_name ext))).
Proof.
  rewrite extensions_find. split.
  - destruct (find _ (get_extensions csr)) as [bad|] eqn:Hf; split.
    + discriminate.
    + intros Hall. apply find_some in Hf as [Hin Hbad].
      apply list_elem_of_In, Hall, ext_allowed_spec in Hin.
      rewrite Hin in Hbad. discriminate.
    + intros _ ext Hin. apply ext_allowed_spec.
      apply list_elem_of_In in Hin. pose proof (find_none _ _ Hf ext Hin) as Hn.
      apply negb_false_iff. exact Hn.
    + reflexivity.
  - intros pre ext post -> Hpre Hbad.
    induction Hpre as [|e pre He _ IH]; cbn [app find].
    + rewrite Hbad. reflexivity.
    + rewrite He. exact IH.
Qed.

(** X2. Listing more in the whitelist never turns an acceptance of
    extensions into a refusal, and the order of the extensions does not
    matter for acceptance. *)
Theorem extensions_monotone csr csr' allowed allowed' :
  (forall x, x ∈ allowed -> x ∈ allowed') ->
  (forall ext, ext ∈ get_extensions csr' -> ext ∈ get_extensions csr) ->
  extensions csr allowed = Return tt -> extensions csr' allowed' = Return tt.
Proof.
  intros Hsub Hexts. rewrite !extensions_find.
  destruct (find _ (get_extensions csr)) as [bad|] eqn:Hf; [discriminate|].
  intros _. destruct (find _ (get_extensions csr')) as [bad|] eqn:Hf'; [|reflexivity].
  exfalso. apply find_some in Hf' as [Hin Hbad].
  apply list_elem_of_In, Hexts, list_elem_of_In in Hin.
  pose proof (find_none _ _ Hf bad Hin) as Hok.
  apply negb_false_iff, ext_allowed_spec in Hok.
  apply negb_true_iff in Hbad.
  assert (Hok' : ext_allowed allowed' bad = true)
    by (apply ext_allowed_spec; destruct Hok; auto).
  congruence.
Qed.

(** *** Further properties: [blacklist_names] *)

(** A loop over the DNS names of the helper, when entries of other types
    are skipped, is a loop over the DNS names of the request. *)
Lemma for_gen_dns_names (bad : string -> bool) (err : string -> exn) csr :
  for_gen (fun g => name ← name_of g; raise_if (bad name) (err name))
          (iter_alternative_names csr ["DNS"] false) =
  match find bad (dns_names csr) with
  | Some name => Raise (err name)
  | None => Return tt
  end.
Proof.
  rewrite <- for_each_raise_if.
  unfold iter_alternative_names, dns_names, for_gen.
  induction (alt_entries csr) as [|g es IH]; [reflexivity|].
  cbn [iter_entries flat_map].
  assert (Hyield : forall name,
            name_of g = Return name -> name_type g = "DNS" ->
            for_each (fun g => name ← name_of g; raise_if (bad name) (err name))
              (g :: (iter_entries ["DNS"] false es).1) ≫=
              (fun _ => match (iter_entries ["DNS"] false es).2 with
                        | Some e => Raise e
                        | None => Return tt
                        end) =
            for_each (fun name => raise_if (bad name) (err name))
              ([name] ++ flat_map
                 (fun g => match g with
                           | GN_DNS name => [name]
                           | GN_Other t value =>
                               if String.eqb t "DNS" then [value] else []
                           | GN_IP _ => []
                           end) es)%list).
  { intros name Hname _. cbn [for_each app]. rewrite Hname, bind_Return.
    destruct (raise_if _ _) as [[]|e]; [|reflexivity].
    rewrite !bind_Return. exact IH. }
  destruct g as [name|ip|t value]; cbn [name_type].
  - rewrite bool_decide_eq_true_2 by (apply elem_of_DNS; reflexivity).
    apply Hyield; reflexivity.
  - rewrite bool_decide_eq_false_2 by (rewrite elem_of_DNS; discriminate).
    exact IH.
  - destruct (String.eqb_spec t "DNS") as [->|Hne].
    + rewrite bool_decide_eq_true_2 by (apply elem_of_DNS; reflexivity).
      apply Hyield; reflexivity.
    + rewrite bool_decide_eq_false_2 by (rewrite elem_of_DNS; exact Hne).
      exact IH.
Qed.

(** [check_domains] answers yes for more names when more suffixes are
    listed. *)
Lemma check_domains_mono name (doms doms' : list string) :
  (forall d, d ∈ doms -> d ∈ doms') ->
  check_domains name doms = true -> check_domains name doms' = true.
Proof.
  intros Hsub. unfold check_domains. rewrite !existsb_exists.
  intros (d & Hin & Hd). exists d. split; [|exact Hd].
  apply list_elem_of_In, Hsub, list_elem_of_In. exact Hin.
Qed.

(** [blacklist_names] with a blacklist that is not empty. *)
Lemma blacklist_names_nonempty csr domains :
  domains <> [] ->
  blacklist_names csr domains =
  ((if (0 <? length (get_entries_by_oid OID_commonName csr))%nat then
      cn ← csr_require_cn csr;
      raise_if (check_domains cn domains) (CNBlacklisted cn)
    else Return tt) ;;
   match find (fun name => check_domains name domains) (dns_names csr) with
   | Some name => Raise (AltBlacklisted name)
   | None => Return tt
   end).
Proof.
  intros Hne. unfold blacklist_names.
  destruct domains as [|d ds]; [contradiction|].
  rewrite (for_gen_dns_names (fun name => check_domains name (d :: ds))
                             AltBlacklisted).
  reflexivity.
Qed.

(** X3. blacklistNames with an empty blacklist accepts every request.  With
    entries in the blacklist, a request with a single CN that matches fails
    on the CN whatever its alternative names are; a request whose CN, if
    any, does not match fails on the first DNS alternative name that
    matches; and a request is accepted iff it has at most one CN, the CN
    does not match and no DNS alternative name matches.  Alternative names
    of other types play no part. *)
Theorem blacklist_names_outcome csr domains :
  blacklist_names csr [] = Return tt /\
  (domains <> [] ->
   (forall cn, get_entries_by_oid OID_commonName csr = [cn] ->
      check_domains cn domains = true ->
      blacklist_names csr domains = Raise (CNBlacklisted cn)) /\
   ((get_entries_by_oid OID_commonName csr = [] \/
     exists cn, get_entries_by_oid OID_commonName csr = [cn] /\
                check_domains cn domains = false) ->
    blacklist_names csr domains =
      match find (fun name => check_domains name domains) (dns_names csr) with
      | Some name => Raise (AltBlacklisted name)
      | None => Return tt
      end) /\
   (blacklist_names csr domains = Return tt <->
    (get_entries_by_oid OID_commonName csr = [] \/
     exists cn, get_entries_by_oid OID_commonName csr = [cn] /\
                check_domains cn domains = false) /\
    forall name, name ∈ dns_names csr -> check_domains name domains = false)).
Proof.
  split; [reflexivity|]. intros Hne.
  rewrite (blacklist_names_nonempty _ _ Hne). unfold csr_require_cn.
  assert (Hfind : match find (fun name => check_domains name domains) (dns_names csr) with
                  | Some name => Raise (AltBlacklisted name)
                  | None => Return tt
                  end = Return tt <->
                  forall name, name ∈ dns_names csr -> check_domains name domains = false).
  { destruct (find _ (dns_names csr)) as [name|] eqn:Hf; split.
    - discriminate.
    - intros Hall. apply find_some in Hf as [Hin Hbad].
      apply list_elem_of_In, Hall in Hin. congruence.
    - intros _ name Hin. apply list_elem_of_In in Hin.
      exact (find_none _ _ Hf name Hin).
    - reflexivity. }
  destruct (get_entries_by_oid OID_commonName csr) as [|cn [|cn' l]];
    cbn [length Nat.ltb Nat.leb]; rewrite ?bind_Return.
  - split; [intros cn [=]|]. split; [reflexivity|].
    rewrite Hfind. split; [auto|]. intros [_ H]. exact H.
  - destruct (check_domains cn domains) eqn:Hcn; cbn [raise_if]; rewrite ?bind_Return.
    + split; [intros ? [= <-] _; reflexivity|]. split.
      * intros [[=]|(c & [= <-] & Hc)]. congruence.
      * split; [discriminate|]. intros [[[=]|(c & [= <-] & Hc)] _]. congruence.
    + split; [intros ? [= <-] H; congruence|]. split; [reflexivity|].
      rewrite Hfind. split; [eauto|]. intros [_ H]. exact H.
  - split; [intros ? [=]|]. split.
    + intros [[=]|(c & [=] & _)].
    + split; [discriminate|]. intros [[[=]|(c & [=] & _)] _].
Qed.

(** X4. Taking entries off the blacklist never turns an acceptance of
    blacklistNames into a refusal. *)
Theorem blacklist_names_antitone csr domains domains' :
  (forall d, d ∈ domains -> d ∈ domains') ->
  blacklist_names csr domains' = Return tt ->
  blacklist_names csr domains = Return tt.
Proof.
  intros Hsub. destruct domains as [|d ds]; [reflexivity|].
  assert (Hne : d :: ds <> []) by discriminate.
  assert (Hne' : domains' <> []).
  { intros ->. specialize (Hsub d (list_elem_of_here _ _)).
    apply elem_of_nil in Hsub. exact Hsub. }
  rewrite (blacklist_names_nonempty _ _ Hne), (blacklist_names_nonempty _ _ Hne').
  unfold csr_require_cn.
  assert (Hno : forall name, check_domains name domains' = false ->
                             check_domains name (d :: ds) = false).
  { intros name Hn. apply not_true_is_false. intros Hy.
    rewrite (check_domains_mono _ _ _ Hsub Hy) in Hn. discriminate. }
  assert (Halt : match find (fun name => check_domains name domains') (dns_names csr) with
                 | Some name => Raise (AltBlacklisted name)
                 | None => Return tt
                 end = Return tt ->
                 match find (fun name => check_domains name (d :: ds)) (dns_names csr) with
                 | Some name => Raise (AltBlacklisted name)
                 | None => Return tt
                 end = Return tt).
  { destruct (find _ (dns_names csr)) as [n|] eqn:Hf'; [discriminate|]. intros _.
    destruct (find (fun name => check_domains name (d :: ds)) (dns_names csr))
      as [n|] eqn:Hf; [|reflexivity].
    apply find_some in Hf as [Hin Hbad].
    rewrite (Hno n (find_none _ _ Hf' n Hin)) in Hbad. discriminate. }
  destruct (get_entries_by_oid OID_commonName csr) as [|cn [|cn' l]];
    cbn [length Nat.ltb Nat.leb]; rewrite ?bind_Return.
  - exact Halt.
  - destruct (check_domains cn domains') eqn:Hcn; cbn [raise_if];
      [discriminate|]. rewrite (Hno cn Hcn). cbn [raise_if].
    rewrite !bind_Return. exact Halt.
  - discriminate.
Qed.

(** *** Further properties: [alternative_names_ip] *)

Lemma for_gen_cons {A} (body : A -> outcome unit) (x : A) (g : generator A) :
  for_gen body (x :: g.1, g.2) = (body x ;; for_gen body g).
Proof. unfold for_gen. cbn [fst snd for_each]. destruct (body x); reflexivity. Qed.

(** The helper asked for DNS and IP entries yields an entry of either kind. *)
Lemma iter_entries_dns_ip_cons fail g es :
  (exists name, g = GN_DNS name) \/ (exists ip, g = GN_IP ip) ->
  iter_entries ["DNS"; "IP Address"] fail (g :: es) =
  (g :: (iter_entries ["DNS"; "IP Address"] fail es).1,
   (iter_entries ["DNS"; "IP Address"] fail es).2).
Proof.
  intros Hg. cbn [iter_entries].
  rewrite bool_decide_eq_true_2; [reflexivity|].
  destruct Hg as [[name ->]|[ip ->]]; cbn [name_type].
  - apply list_elem_of_here.
  - apply list_elem_of_further, list_elem_of_here.
Qed.

(** X5. On a request whose alternative names are all DNS names,
    alternativeNamesIP does what alternativeNames does, whatever the allowed
    networks are. *)
Theorem alternative_names_ip_dns_only csr doms nets :
  Forall (fun g => exists name, g = GN_DNS name) (alt_entries csr) ->
  alternative_names_ip csr doms nets = alternative_names csr doms.
Proof.
  unfold alternative_names_ip, alternative_names, alternative_names_with,
    iter_alternative_names.
  induction 1 as [|g es [name ->] _ IH]; [reflexivity|].
  rewrite iter_entries_dns_ip_cons by eauto.
  cbn [iter_entries name_type].
  rewrite bool_decide_eq_true_2 by (apply elem_of_DNS; reflexivity).
  rewrite (for_gen_cons _ (GN_DNS name) (iter_entries ["DNS"] _ es)).
  rewrite (for_gen_cons _ (GN_DNS name) (iter_entries ["DNS"; "IP Address"] _ es)).
  rewrite IH. cbn -[check_domains for_gen].
  destruct (check_domains name doms); reflexivity.
Qed.

(** The loop of [alternative_names_ip] passes over the entries it lets
    through. *)
Lemma alternative_names_ip_skip doms nets fail (pre rest : list general_name) :
  Forall (entry_passes doms nets) pre ->
  for_gen
    (fun g : general_name =>
       (if String.eqb (name_type g) "DNS" then
          name ← name_of g;
          raise_if (negb (check_domains name doms)) (AltDomainNotAllowed name)
        else Return tt) ;;
       if String.eqb (name_type g) "IP Address" then
         match g with
         | GN_IP ip =>
             ok ← check_networks ip nets;
             raise_if (negb ok) (AltNetworkNotAllowed ip)
         | _ => Raise TypeError
         end
       else Return tt)
    (iter_entries ["DNS"; "IP Address"] fail (pre ++ rest)%list) =
  for_gen
    (fun g : general_name =>
       (if String.eqb (name_type g) "DNS" then
          name ← name_of g;
          raise_if (negb (check_domains name doms)) (AltDomainNotAllowed name)
        else Return tt) ;;
       if String.eqb (name_type g) "IP Address" then
         match g with
         | GN_IP ip =>
             ok ← check_networks ip nets;
             raise_if (negb ok) (AltNetworkNotAllowed ip)
         | _ => Raise TypeError
         end
       else Return tt)
    (iter_entries ["DNS"; "IP Address"] fail rest).
Proof.
  induction 1 as [|g pre Hg _ IH]; [reflexivity|].
  cbn [app]. destruct g as [name|ip|t value]; cbn in Hg; [| |contradiction].
  - rewrite iter_entries_dns_ip_cons by eauto. rewrite for_gen_cons, IH.
    cbn -[check_domains for_gen]. rewrite Hg. reflexivity.
  - rewrite iter_entries_dns_ip_cons by eauto. rewrite for_gen_cons, IH.
    cbn -[check_networks for_gen]. rewrite Hg. reflexivity.
Qed.

(** X6. alternativeNamesIP walks the alternative names in order: past DNS
    names that match an allowed domain and addresses inside an allowed
    network, it fails with DomainNotAllowed at a DNS name that matches no
    domain and with NetworkNotAllowed at an address that no network
    contains, whatever follows; a request all of whose alternative names
    are let through is accepted. *)
Theorem alternative_names_ip_in_order csr doms nets (pre : list general_name) :
  Forall (entry_passes doms nets) pre ->
  (alt_entries csr = pre -> alternative_names_ip csr doms nets = Return tt) /\
  (forall name post,
     alt_entries csr = (pre ++ GN_DNS name :: post)%list ->
     check_domains name doms = false ->
     alternative_names_ip csr doms nets = Raise (AltDomainNotAllowed name)) /\
  (forall ip post,
     alt_entries csr = (pre ++ GN_IP ip :: post)%list ->
     check_networks ip nets = Return false ->
     alternative_names_ip csr doms nets = Raise (AltNetworkNotAllowed ip)).
Proof.
  intros Hpre. unfold alternative_names_ip, iter_alternative_names.
  split; [|split].
  - intros ->. rewrite <- (app_nil_r pre).
    rewrite (alternative_names_ip_skip doms nets _ pre [] Hpre).
    reflexivity.
  - intros name post -> Hname.
    rewrite (alternative_names_ip_skip doms nets _ pre _ Hpre).
    rewrite iter_entries_dns_ip_cons by eauto.
    rewrite for_gen_cons. cbn -[check_domains for_gen]. rewrite Hname.
    reflexivity.
  - intros ip post -> Hip.
    rewrite (alternative_names_ip_skip doms nets _ pre _ Hpre).
    rewrite iter_entries_dns_ip_cons by eauto.
    rewrite for_gen_cons. cbn -[check_networks for_gen]. rewrite Hip.
    reflexivity.
Qed.

(** *** Further properties: [ext_key_usage] *)

Lemma normalize_pure_all (l : list usage_value) :
  Forall (fun u => is_Some (usage_oid u)) l ->
  normalize_pure l = (map rewrite_usage l, None).
Proof.
  induction 1 as [|u l [o Ho] _ IH]; [reflexivity|].
  cbn [normalize_pure map]. unfold rewrite_usage at 1. rewrite Ho, IH. reflexivity.
Qed.

Lemma normalize_pure_stops (pre post : list usage_value) u :
  Forall (fun u => is_Some (usage_oid u)) pre -> usage_oid u = None ->
  normalize_pure (pre ++ u :: post)%list =
  ((map rewrite_usage pre ++ u :: post)%list, Some (UnknownUsage (usage_str u))).
Proof.
  intros Hpre Hu. induction Hpre as [|v pre [o Ho] _ IH]; cbn [app normalize_pure map].
  - rewrite Hu. reflexivity.
  - unfold rewrite_usage at 1. rewrite Ho, IH. reflexivity.
Qed.

(** X7. extKeyUsage fails with UnknownUsage at the first configured entry
    that is neither a long name, nor a short name, nor an object identifier
    in text, whatever the request holds; the entries before it have by then
    been replaced by their object identifiers in the caller's list, the
    entry and those after it are as they were. *)
Theorem ext_key_usage_unknown_usage csr (pre post : list usage_value) s :
  Forall (fun u => is_Some (usage_oid u)) pre ->
  usage_oid (inl s) = None ->
  ext_key_usage csr (Some (pre ++ inl s :: post)%list) =
  (Raise (UnknownUsage s), Some (map rewrite_usage pre ++ inl s :: post)%list).
Proof.
  intros Hpre Hs. unfold ext_key_usage.
  rewrite normalize_usages_whole, (normalize_pure_stops _ _ _ Hpre Hs).
  reflexivity.
Qed.

(** The accumulator of [ext_key_usage] holds what it held before the loop
    and the identifiers outside the allowed set of every ExtendedKeyUsage
    extension. *)
Lemma elem_of_denied_ext_fold (allowed : gset usage_value)
    (exts : list Extension) (acc : gset oid) (o : oid) :
  o ∈ foldl (fun denied ext =>
               match ext with
               | ExtendedKeyUsage usages =>
                   denied ∪ filter (fun o => inr o ∉ allowed) usages
               | _ => denied
               end) acc exts <->
  o ∈ acc \/ exists usages, ExtendedKeyUsage usages ∈ exts /\ o ∈ usages /\
                            inr o ∉ allowed.
Proof.
  revert acc. induction exts as [|ext exts IH]; intros acc; cbn [foldl].
  - split; [auto|]. intros [H|(u & Hin & _)]; [exact H|].
    apply elem_of_nil in Hin. contradiction.
  - rewrite IH. split.
    + intros [Hacc|(u & Hin & Hu)].
      * destruct ext; auto.
        apply elem_of_union in Hacc as [Hacc|Hd]; [auto|].
        apply elem_of_filter in Hd as [Hn Hf].
        right. eexists. split; [apply list_elem_of_here | auto].
      * right. exists u. split; [apply list_elem_of_further; exact Hin | exact Hu].
    + intros [Hacc|(u & Hin & Hf & Hn)].
      * left. destruct ext; auto. apply elem_of_union. auto.
      * apply elem_of_cons in Hin as [<-|Hin].
        -- left. apply elem_of_union. right. apply elem_of_filter. auto.
        -- right. eauto.
Qed.

(** After a normalisation that did not stop, the allowed set holds the
    object identifiers the configured entries stand for. *)
Lemma elem_of_rewritten (l : list usage_value) (o : oid) :
  Forall (fun u => is_Some (usage_oid u)) l ->
  inr o ∈ (list_to_set (map rewrite_usage l) : gset usage_value) <->
  o ∈ allowed_oids l.
Proof.
  intros Hl. rewrite elem_of_list_to_set. unfold allowed_oids.
  rewrite list_elem_of_omap. change (map rewrite_usage l) with (rewrite_usage <$> l).
  rewrite list_elem_of_fmap. rewrite Forall_forall in Hl.
  split.
  - intros (u & Hu & Hin). exists u. split; [exact Hin|].
    destruct (Hl u Hin) as [o' Ho']. unfold rewrite_usage in Hu.
    rewrite Ho' in Hu. congruence.
  - intros (u & Hin & Hu). exists u. split; [|exact Hin].
    unfold rewrite_usage. rewrite Hu. reflexivity.
Qed.

Lemma elem_of_denied_ext_usages (l : list usage_value) (exts : list Extension)
    (o : oid) :
  Forall (fun u => is_Some (usage_oid u)) l ->
  o ∈ denied_ext_usages (list_to_set (map rewrite_usage l)) exts <->
  exists usages, ExtendedKeyUsage usages ∈ exts /\ o ∈ usages /\ o ∉ allowed_oids l.
Proof.
  intros Hl. unfold denied_ext_usages. rewrite elem_of_denied_ext_fold.
  split.
  - intros [H|(u & Hin & Ho & Hn)]; [apply not_elem_of_empty in H; contradiction|].
    exists u. rewrite <- (elem_of_rewritten l o Hl). auto.
  - intros (u & Hin & Ho & Hn). right. exists u.
    rewrite (elem_of_rewritten l o Hl). auto.
Qed.

(** [ext_key_usage] on a list all of whose entries can be normalised. *)
Lemma ext_key_usage_normalised csr (l : list usage_value) :
  Forall (fun u => is_Some (usage_oid u)) l ->
  ext_key_usage csr (Some l) =
  let denied := denied_ext_usages (list_to_set (map rewrite_usage l))
                                  (get_extensions csr) in
  (if bool_decide (denied = ∅) then Return tt
   else if bool_decide (set_Forall
                          (fun o => is_Some (EXT_KEY_USAGE_SHORT_NAMES !! o)) denied)
        then Raise (ExtKeyUsageNotAllowed denied)
        else Raise TypeError,
   Some (map rewrite_usage l)).
Proof.
  intros Hl. unfold ext_key_usage.
  rewrite normalize_usages_whole, (normalize_pure_all _ Hl). reflexivity.
Qed.

(** X8. When every configured entry can be normalised, extKeyUsage leaves
    the caller's list with each entry replaced by its object identifier,
    and it accepts iff every usage of every ExtendedKeyUsage extension of
    the request is among the object identifiers the entries stand for. *)
Theorem ext_key_usage_accepts csr (l : list usage_value) :
  Forall (fun u => is_Some (usage_oid u)) l ->
  (ext_key_usage csr (Some l)).2 = Some (map inr (allowed_oids l)) /\
  ((ext_key_usage csr (Some l)).1 = Return tt <->
   forall usages o, ExtendedKeyUsage usages ∈ get_extensions csr ->
                    o ∈ usages -> o ∈ allowed_oids l).
Proof.
  intros Hl. rewrite (ext_key_usage_normalised _ _ Hl). cbn [fst snd]. split.
  - f_equal. unfold allowed_oids. clear csr.
    induction Hl as [|u l [o Ho] _ IH]; [reflexivity|].
    cbn [map omap list_omap]. unfold rewrite_usage at 1. rewrite Ho.
    cbn [map]. rewrite IH. reflexivity.
  - destruct (decide (denied_ext_usages (list_to_set (map rewrite_usage l))
                                        (get_extensions csr) = ∅)) as [He|Hne].
    + rewrite bool_decide_eq_true_2 by exact He. split; [|reflexivity].
      intros _ usages o Hin Ho.
      destruct (decide (o ∈ allowed_oids l)) as [|Hn]; [assumption|].
      assert (Hd : o ∈ denied_ext_usages (list_to_set (map rewrite_usage l))
                                         (get_extensions csr))
        by (apply (elem_of_denied_ext_usages _ _ _ Hl); eauto).
      rewrite He in Hd. apply not_elem_of_empty in Hd. contradiction.
    + rewrite bool_decide_eq_false_2 by exact Hne. split.
      * destruct (bool_decide _); discriminate.
      * intros Hall. exfalso. apply Hne. apply elem_of_equiv_empty_L. intros o Hd.
        apply (elem_of_denied_ext_usages _ _ _ Hl) in Hd as (u & Hin & Ho & Hn).
        apply Hn. exact (Hall u o Hin Ho).
Qed.

(** X9. When every configured entry can be normalised and some usage of the
    request is not allowed, extKeyUsage fails with ExtKeyUsageNotAllowed
    naming exactly the usages that are not allowed, provided each of them
    has a short name; if one of them has none, the call ends in a
    [TypeError] instead of a validation error. *)
Theorem ext_key_usage_denied csr (l : list usage_value) :
  Forall (fun u => is_Some (usage_oid u)) l ->
  let denied := denied_ext_usages (list_to_set (map rewrite_usage l))
                                  (get_extensions csr) in
  (forall o, o ∈ denied <->
     exists usages, ExtendedKeyUsage usages ∈ get_extensions csr /\
                    o ∈ usages /\ o ∉ allowed_oids l) /\
  (denied <> ∅ ->
   (forall o, o ∈ denied -> is_Some (EXT_KEY_USAGE_SHORT_NAMES !! o)) ->
   (ext_key_usage csr (Some l)).1 = Raise (ExtKeyUsageNotAllowed denied)) /\
  (forall o, o ∈ denied -> EXT_KEY_USAGE_SHORT_NAMES !! o = None ->
   (ext_key_usage csr (Some l)).1 = Raise TypeError).
Proof.
  intros Hl denied.
  split; [intros o; apply (elem_of_denied_ext_usages _ _ _ Hl)|].
  rewrite (ext_key_usage_normalised _ _ Hl). cbn [fst]. fold denied. split.
  - intros Hne Hnames. rewrite bool_decide_eq_false_2 by exact Hne.
    rewrite bool_decide_eq_true_2; [reflexivity|]. exact Hnames.
  - intros o Ho Hnone.
    rewrite bool_decide_eq_false_2
      by (intros He; rewrite He in Ho; apply not_elem_of_empty in Ho; exact Ho).
    rewrite bool_decide_eq_false_2; [reflexivity|].
    intros Hall. destruct (Hall o Ho) as [n Hn]. congruence.
Qed.

(** *** Further properties: [csr_signature] *)

(** X10. csrSignature accepts iff the request's verification returns true;
    a false result and an error of the verification end in the same
    InvalidSignature failure, and there is no other outcome. *)
Theorem csr_signature_outcome csr :
  (csr_signature csr = Return tt <-> verify csr = Some true) /\
  (verify csr <> Some true -> csr_signature csr = Raise InvalidSignature).
Proof.
  unfold csr_signature. destruct (verify csr) as [[|]|]; cbn; split;
    try split; try discriminate; try reflexivity; intros H; try reflexivity;
    exfalso; apply H; reflexivity.
Qed.

(** *** Further properties: [source_cidrs] *)

(** One turn of the loop of [source_cidrs] with the request present. *)
Lemma source_cidrs_loop_cons r cidr rest :
  source_cidrs_loop (Some r) (cidr :: rest) =
  match IPNetwork cidr with
  | None => Raise (cidr_failure cidr)
  | Some net => if net_contains net (client_addr r) then Return tt
                else source_cidrs_loop (Some r) rest
  end.
Proof.
  cbn [source_cidrs_loop]. unfold new_IPNetwork, cidr_failure.
  destruct (IPNetwork cidr) as [net|].
  - cbn. destruct (net_contains net (client_addr r)); reflexivity.
  - cbn. destruct (IPNetwork_raises cidr); reflexivity.
Qed.

(** X11. With the request and the list given, the outcome of sourceCIDRs is
    decided by the first entry of the list that is not a valid network
    missing the client address.  If there is none it fails with
    SourceNotAllowed; if that entry is a valid network containing the
    address it accepts, and it accepts in no other case; if netaddr refuses
    that entry it fails with InvalidCIDRConfig when netaddr raised
    [AddrFormatError] and otherwise ends in the exception netaddr raised. *)
Theorem source_cidrs_outcomes (r : Request) (l : list string) :
  (source_cidrs (Some r) (Some l) = Return tt <->
   exists pre cidr post,
     l = (pre ++ cidr :: post)%list /\ Forall (misses (client_addr r)) pre /\
     cidr_contains (client_addr r) cidr = true) /\
  ((Forall (misses (client_addr r)) l /\
    source_cidrs (Some r) (Some l) = Raise (SourceNotAllowed (client_addr r))) \/
   (exists pre cidr post,
      l = (pre ++ cidr :: post)%list /\ Forall (misses (client_addr r)) pre /\
      cidr_contains (client_addr r) cidr = true /\
      source_cidrs (Some r) (Some l) = Return tt) \/
   (exists pre cidr post,
      l = (pre ++ cidr :: post)%list /\ Forall (misses (client_addr r)) pre /\
      IPNetwork cidr = None /\
      source_cidrs (Some r) (Some l) = Raise (cidr_failure cidr))).
Proof.
  unfold source_cidrs. split; [split|].
  - induction l as [|cidr rest IH]; [discriminate|].
    rewrite source_cidrs_loop_cons.
    destruct (IPNetwork cidr) as [net|] eqn:Hnet.
    + destruct (net_contains net (client_addr r)) eqn:Hc.
      * intros _. exists [], cidr, rest. split; [reflexivity|].
        split; [constructor|]. unfold cidr_contains. rewrite Hnet. exact Hc.
      * intros H. destruct (IH H) as (pre & c & post & -> & Hpre & Hcon).
        exists (cidr :: pre), c, post. split; [reflexivity|].
        split; [|exact Hcon]. constructor; [|exact Hpre]. exists net. auto.
    + unfold cidr_failure. destruct (IPNetwork_raises cidr); discriminate.
  - intros (pre & cidr & post & -> & Hpre & Hcon).
    rewrite (source_cidrs_loop_skip _ _ _ Hpre), source_cidrs_loop_cons.
    unfold cidr_contains in Hcon.
    destruct (IPNetwork cidr) as [net|]; [|discriminate]. rewrite Hcon. reflexivity.
  - induction l as [|cidr rest IH]; [left; split; [constructor | reflexivity]|].
    rewrite source_cidrs_loop_cons.
    destruct (IPNetwork cidr) as [net|] eqn:Hnet.
    + destruct (net_contains net (client_addr r)) eqn:Hc.
      * right; left. exists [], cidr, rest. split; [reflexivity|].
        split; [constructor|]. split; [|reflexivity].
        unfold cidr_contains. rewrite Hnet. exact Hc.
      * assert (Hm : misses (client_addr r) cidr) by (exists net; auto).
        destruct IH as [[Hall H]|[(pre & c & post & -> & Hpre & Hcon & H)
                                 |(pre & c & post & -> & Hpre & Hno & H)]].
        -- left. split; [constructor; assumption | exact H].
        -- right; left. exists (cidr :: pre), c, post.
           split; [reflexivity|]. split; [constructor; assumption|]. auto.
        -- right; right. exists (cidr :: pre), c, post.
           split; [reflexivity|]. split; [constructor; assumption|]. auto.
    + right; right. exists [], cidr, rest. split; [reflexivity|].
      split; [constructor|]. auto.
Qed.

Lemma existsb_Permutation {A} (f : A -> bool) (l l' : list A) :
  l ≡ₚ l' -> existsb f l = existsb f l'.
Proof.
  induction 1 as [|x l l' _ IH|x y l|l l' l'' _ IH1 _ IH2]; cbn.
  - reflexivity.
  - rewrite IH. reflexivity.
  - destruct (f x), (f y); reflexivity.
  - congruence.
Qed.

(** With valid networks only, the loop of [source_cidrs] accepts iff one of
    them contains the client address. *)
Lemma source_cidrs_loop_valid r (l : list string) :
  Forall (fun cidr => is_Some (IPNetwork cidr)) l ->
  source_cidrs_loop (Some r) l =
  if existsb (cidr_contains (client_addr r)) l then Return tt
  else Raise (SourceNotAllowed (client_addr r)).
Proof.
  induction 1 as [|cidr rest [net Hnet] _ IH]; [reflexivity|].
  rewrite source_cidrs_loop_cons. cbn [existsb]. unfold cidr_contains at 1.
  rewrite Hnet. destruct (net_contains net (client_addr r)); [reflexivity|exact IH].
Qed.

(** X12. When every configured CIDR is a valid network, the outcome of
    sourceCIDRs does not depend on the order of the list. *)
Theorem source_cidrs_order (r : Request) (l l' : list string) :
  Forall (fun cidr => is_Some (IPNetwork cidr)) l -> l ≡ₚ l' ->
  source_cidrs (Some r) (Some l) = source_cidrs (Some r) (Some l').
Proof.
  intros Hl Hp. unfold source_cidrs.
  assert (Hl' : Forall (fun cidr => is_Some (IPNetwork cidr)) l')
    by (rewrite <- Hp; exact Hl).
  rewrite (source_cidrs_loop_valid _ _ Hl), (source_cidrs_loop_valid _ _ Hl').
  rewrite (existsb_Permutation _ _ _ Hp). reflexivity.
Qed.

(** X13. sourceCIDRs accepts no call made without the request, with the
    list of CIDRs omitted, or with an empty list. *)
Theorem source_cidrs_needs_arguments request cidrs :
  source_cidrs request cidrs = Return tt ->
  exists r cidr rest, request = Some r /\ cidrs = Some (cidr :: rest).
Proof.
  destruct cidrs as [[|cidr rest]|]; cbn [source_cidrs source_cidrs_loop].
  - destruct request; discriminate.
  - destruct request as [r|]; [eauto|].
    unfold new_IPNetwork. destruct (IPNetwork cidr); [discriminate|].
    cbn. destruct (IPNetwork_raises cidr); discriminate.
  - discriminate.
Qed.

(** *** Further properties: [server_group] *)

(** X14. A requester who belongs to every group that groupPrefixes names is
    accepted by serverGroup for every request with a single CN. *)
Theorem server_group_member_of_all a csr cn (gp : gmap string string) :
  get_entries_by_oid OID_commonName csr = [cn] ->
  (forall pfx group, gp !! pfx = Some group -> group ∈ groups a) ->
  server_group (Some a) csr gp = Return tt.
Proof.
  intros Hcn Hall. unfold server_group.
  rewrite (csr_require_cn_single _ _ Hcn), bind_Return.
  destruct (_ || _); [reflexivity|].
  destruct (gp !! hd "" (Str.split "-" cn)) as [group|] eqn:Hg; [|reflexivity].
  rewrite bool_decide_eq_true_2 by exact (Hall _ _ Hg). reflexivity.
Qed.

(** X15. serverGroup looks at the part of the CN before its first dash
    only: two requests whose CNs share it have the same outcome. *)
Theorem server_group_first_dash auth csr csr' (gp : gmap string string)
    pfx rest rest' :
  get_entries_by_oid OID_commonName csr = [pfx ++ "-" ++ rest] ->
  get_entries_by_oid OID_commonName csr' = [pfx ++ "-" ++ rest'] ->
  Str.contains "-" pfx = false ->
  server_group auth csr gp = server_group auth csr' gp.
Proof.
  intros Hcn Hcn' Hp.
  rewrite (server_group_prefix _ _ _ _ _ Hcn Hp),
          (server_group_prefix _ _ _ _ _ Hcn' Hp).
  reflexivity.
Qed.

(** X16. Called without an authentication result, serverGroup still accepts
    a request whose prefix is not a key of groupPrefixes, and ends in an
    [AttributeError] iff the prefix is a key. *)
Theorem server_group_no_auth csr (gp : gmap string string) pfx rest :
  get_entries_by_oid OID_commonName csr = [pfx ++ "-" ++ rest] ->
  Str.contains "-" pfx = false -> Str.contains "." pfx = false ->
  (server_group None csr gp = Raise AttributeError <-> is_Some (gp !! pfx)) /\
  (server_group None csr gp = Return tt <-> gp !! pfx = None).
Proof.
  intros Hcn Hp Hdot. rewrite (server_group_prefix _ _ _ _ _ Hcn Hp), Hdot.
  destruct (gp !! pfx) as [group|]; split; split; try discriminate;
    try reflexivity; eauto.
  intros [g [=]].
Qed.

(** *** Further properties: [ca_status] *)

Lemma find_existsb {A} (f : A -> bool) (l : list A) :
  existsb f l = match find f l with Some _ => true | None => false end.
Proof.
  induction l as [|x l IH]; [reflexivity|]. cbn. destruct (f x); [reflexivity|exact IH].
Qed.

Lemma bool_eq_iff_true (b c : bool) : b = c <-> (b = true <-> c = true).
Proof.
  destruct b, c; split; intros H; try reflexivity; try discriminate;
    try (split; intros; (assumption || reflexivity));
    destruct H as [H1 H2];
    first [specialize (H1 eq_refl); discriminate
          |specialize (H2 eq_refl); discriminate].
Qed.

(** [ca_status] accepts iff the request signals a CA exactly when a CA is
    requested. *)
Lemma ca_status_accepts csr ca_requested :
  ca_status csr ca_requested = Return tt <->
  existsb ca_signal (get_extensions csr) = ca_requested.
Proof.
  unfold ca_status. destruct ca_requested.
  - rewrite ca_status_loop_requested. cbn.
    destruct (existsb ca_signal (get_extensions csr)); cbn; split;
      try discriminate; reflexivity.
  - rewrite ca_status_loop_not_requested, find_existsb.
    destruct (find ca_signal (get_extensions csr)); cbn; split;
      try discriminate; reflexivity.
Qed.

(** X17. caStatus accepts iff the request carries a CA-signalling extension
    exactly when a CA is requested; so every request is accepted under
    exactly one of the two settings of caRequested. *)
Theorem ca_status_agreement csr ca_requested :
  (ca_status csr ca_requested = Return tt <->
   ((exists ext, ext ∈ get_extensions csr /\ ca_signal ext = true) <->
    ca_requested = true)) /\
  (ca_status csr true = Return tt <-> ca_status csr false <> Return tt).
Proof.
  split.
  - rewrite ca_status_accepts.
    assert (Hex : existsb ca_signal (get_extensions csr) = true <->
                  exists ext, ext ∈ get_extensions csr /\ ca_signal ext = true).
    { rewrite existsb_exists. split; intros (ext & Hin & Hs); exists ext;
        (split; [apply list_elem_of_In; exact Hin | exact Hs]). }
    rewrite <- Hex. apply bool_eq_iff_true.
  - rewrite !ca_status_accepts.
    destruct (existsb ca_signal (get_extensions csr)); split.
    + intros _ [=].
    + reflexivity.
    + discriminate.
    + intros H. exfalso. apply H. reflexivity.
Qed.

(** X18. Whether caStatus accepts does not depend on the order of the
    extensions of the request. *)
Theorem ca_status_order csr csr' ca_requested :
  get_extensions csr ≡ₚ get_extensions csr' ->
  (ca_status csr ca_requested = Return tt <->
   ca_status csr' ca_requested = Return tt).
Proof.
  intros Hp. rewrite !ca_status_accepts, (existsb_Permutation _ _ _ Hp).
  reflexivity.
Qed.

(** *** Further properties: [key_usage] *)

(** X19. The outcome of keyUsage, the flags named in the failure included,
    does not depend on the order of the extensions of the request, nor on
    the order or the repetitions of the allowed names. *)
Theorem key_usage_order csr csr' (names names' : list string) :
  get_extensions csr ≡ₚ get_extensions csr' ->
  (forall x, x ∈ names <-> x ∈ names') ->
  key_usage csr (Some names) = key_usage csr' (Some names').
Proof.
  intros Hp Hn. rewrite !key_usage_Some. cbn zeta.
  assert (Ha : normalized_usage names = normalized_usage names').
  { apply set_eq. intros f. rewrite !elem_of_normalized_usage.
    split; intros (x & Hx & Hf); exists x; (split; [apply Hn; exact Hx | exact Hf]). }
  assert (Hd : denied_usages (normalized_usage names) (get_extensions csr) =
               denied_usages (normalized_usage names') (get_extensions csr')).
  { rewrite Ha. apply set_eq. intros f. rewrite !elem_of_denied_usages.
    split; intros (u & Hin & Hu); exists u; (split; [|exact Hu]).
    - rewrite <- Hp. exact Hin.
    - rewrite Hp. exact Hin. }
  rewrite Hd. reflexivity.
Qed.

(** X20. Allowing more names, or presenting fewer extensions, never turns an
    acceptance of keyUsage into a refusal. *)
Theorem key_usage_monotone csr csr' (names names' : list string) :
  (forall x, x ∈ names -> x ∈ names') ->
  (forall ext, ext ∈ get_extensions csr' -> ext ∈ get_extensions csr) ->
  key_usage csr (Some names) = Return tt ->
  key_usage csr' (Some names') = Return tt.
Proof.
  intros Hn Hexts. rewrite !key_usage_Some. cbn zeta.
  destruct (decide (denied_usages (normalized_usage names) (get_extensions csr) = ∅))
    as [He|]; [|discriminate].
  intros _. destruct (decide _) as [|Hne]; [reflexivity|].
  exfalso. apply Hne. apply elem_of_equiv_empty_L. intros f Hf.
  apply elem_of_denied_usages in Hf as (u & Hin & Hu & Hnot).
  assert (Hd : f ∈ denied_usages (normalized_usage names) (get_extensions csr)).
  { apply elem_of_denied_usages. exists u. split; [apply Hexts; exact Hin|].
    split; [exact Hu|]. intros Hall. apply Hnot.
    apply elem_of_normalized_usage in Hall as (x & Hx & Hfx).
    apply elem_of_normalized_usage. exists x. auto. }
  rewrite He in Hd. apply not_elem_of_empty in Hd. exact Hd.
Qed.

(** *** Further properties: [common_name] *)

(** X21. When the request has a single CN, commonName decides on the
    subject alone: the extensions of the request, the subjectAltName
    included, play no part. *)
Theorem common_name_ignores_extensions csr csr' cn doms nets :
  get_entries_by_oid OID_commonName csr = [cn] ->
  subject csr' = subject csr ->
  common_name csr' doms nets = common_name csr doms nets.
Proof.
  intros Hcn Hs.
  assert (Hcn' : get_entries_by_oid OID_commonName csr' = [cn])
    by (unfold get_entries_by_oid; rewrite Hs; exact Hcn).
  rewrite (common_name_single _ _ _ _ Hcn), (common_name_single _ _ _ _ Hcn').
  reflexivity.
Qed.

(** X22. In the configuration of keyUsage a long name and the canonical
    flag it stands for are interchangeable, as long as the flag is not
    itself the long name of another flag. *)
Theorem key_usage_long_name csr (x f : string) (names : list string) :
  LONG_KEY_USAGE_NAMES !! x = Some f ->
  LONG_KEY_USAGE_NAMES !! f = None ->
  key_usage csr (Some (x :: names)) = key_usage csr (Some (f :: names)).
Proof.
  intros Hx Hf. rewrite !key_usage_Some. cbn zeta.
  replace (normalized_usage (x :: names)) with (normalized_usage (f :: names));
    [reflexivity|].
  unfold normalized_usage. cbn [map]. rewrite Hx, Hf. reflexivity.
Qed.

(** X23. commonName never accepts a request with several CNs, nor one that
    has neither a CN nor an extension named subjectAltName. *)
Theorem common_name_accepted csr doms nets :
  common_name csr doms nets = Return tt ->
  (length (get_entries_by_oid OID_commonName csr) <= 1)%nat /\
  (get_entries_by_oid OID_commonName csr = [] ->
   Exists (fun ext => get_name ext = "subjectAltName") (get_extensions csr)).
Proof.
  unfold common_name.
  destruct (get_entries_by_oid OID_commonName csr) as [|cn [|cn' l]];
    cbn [length Nat.ltb Nat.leb Nat.eqb raise_if andb].
  - rewrite bind_Return.
    destruct (existsb _ _) eqn:Hex; cbn [negb raise_if]; [|discriminate].
    intros _. split; [lia|]. intros _.
    apply existsb_exists in Hex as (ext & Hin & Heq).
    apply Exists_exists. exists ext. split; [apply list_elem_of_In; exact Hin|].
    apply String.eqb_eq. exact Heq.
  - intros _. split; [lia | discriminate].
  - discriminate.
Qed.

(** After a normalisation that did not stop, the list holds the object
    identifiers the configured entries stand for, in order. *)
Lemma rewritten_allowed_oids (l : list usage_value) :
  Forall (fun u => is_Some (usage_oid u)) l ->
  map rewrite_usage l = map inr (allowed_oids l).
Proof.
  unfold allowed_oids. induction 1 as [|u l [o Ho] _ IH]; [reflexivity|].
  cbn [map omap list_omap]. unfold rewrite_usage at 1. rewrite Ho.
  cbn [map]. rewrite IH. reflexivity.
Qed.

(** X24. The outcome of extKeyUsage depends on the configured entries only
    through the set of object identifiers they stand for, and on the
    extensions of the request not through their order: a usage may be
    given by its long name, its short name or its identifier in text, in
    any order and any number of times. *)
Theorem ext_key_usage_spelling csr csr' (l l' : list usage_value) :
  Forall (fun u => is_Some (usage_oid u)) l ->
  Forall (fun u => is_Some (usage_oid u)) l' ->
  (forall o, o ∈ allowed_oids l <-> o ∈ allowed_oids l') ->
  get_extensions csr ≡ₚ get_extensions csr' ->
  (ext_key_usage csr (Some l)).1 = (ext_key_usage csr' (Some l')).1.
Proof.
  intros Hl Hl' Hsame Hp.
  rewrite (ext_key_usage_normalised _ _ Hl), (ext_key_usage_normalised _ _ Hl').
  cbn [fst].
  replace (denied_ext_usages (list_to_set (map rewrite_usage l')) (get_extensions csr'))
    with (denied_ext_usages (list_to_set (map rewrite_usage l)) (get_extensions csr));
    [reflexivity|].
  apply set_eq. intros o.
  rewrite (elem_of_denied_ext_usages _ _ _ Hl), (elem_of_denied_ext_usages _ _ _ Hl').
  split; intros (u & Hin & Ho & Hn); exists u.
  - split; [rewrite <- Hp; exact Hin|]. split; [exact Ho|].
    intros H. apply Hn, Hsame. exact H.
  - split; [rewrite Hp; exact Hin|]. split; [exact Ho|].
    intros H. apply Hn, Hsame. exact H.
Qed.

End Validators.

(** ** The validators on concrete requests

    The collaborators are those of [Sample]. *)

Abbreviation sample_common_name :=
  (common_name Sample.IPAddress Sample.IPAddress_raises Sample.IPNetwork
               Sample.net_contains).
Abbreviation sample_source_cidrs :=
  (source_cidrs Sample.IPNetwork Sample.IPNetwork_raises Sample.net_contains
                Sample.addr_str).
Abbreviation sample_key_usage := (key_usage (Address := Sample.Address)
                                        Sample.LONG_KEY_USAGE_NAMES).
Abbreviation sample_ext_key_usage :=
  (ext_key_usage (Address := Sample.Address) Sample.ObjectIdentifier
     Sample.EXT_KEY_USAGE_NAMES_INV Sample.EXT_KEY_USAGE_SHORT_NAMES_INV
     Sample.EXT_KEY_USAGE_SHORT_NAMES).
Abbreviation sample_run :=
  (run Sample.IPAddress Sample.IPAddress_raises Sample.IPNetwork
       Sample.IPNetwork_raises Sample.net_contains Sample.addr_str
       Sample.ObjectIdentifier Sample.LONG_KEY_USAGE_NAMES
       Sample.EXT_KEY_USAGE_NAMES_INV Sample.EXT_KEY_USAGE_SHORT_NAMES_INV
       Sample.EXT_KEY_USAGE_SHORT_NAMES).
(** A request with the given CNs and extensions. *)
Abbreviation request_with cns exts :=
  (@Build_CSR Sample.Address (map (pair OID_commonName) cns) exts (Some true)).

Example common_name_address_accepted :
  sample_common_name (request_with ["10.0.0.5"] []) [] ["10.0.0.0/24"] = Return tt.
Proof. vm_compute. reflexivity. Qed.

Example common_name_address_refused :
  sample_common_name (request_with ["10.0.0.5"] []) [] ["10.0.1.0/24"] =
  Raise (NetworkNotAllowed "10.0.0.5").
Proof. vm_compute. reflexivity. Qed.

Example common_name_address_not_domain_checked :
  sample_common_name (request_with ["10.0.0.5"] []) ["0.5"] [] =
  Raise (NetworkNotAllowed "10.0.0.5").
Proof. vm_compute. reflexivity. Qed.

Example common_name_domain_accepted :
  sample_common_name (request_with ["api.example.com"] []) ["example.com"] [] =
  Return tt.
Proof. vm_compute. reflexivity. Qed.

Example common_name_domain_refused :
  sample_common_name (request_with ["evilexample.com"] []) ["example.com"] [] =
  Raise (DomainNotAllowed "evilexample.com").
Proof. vm_compute. reflexivity. Qed.

(** A CN with a slash: netaddr raises [ValueError], which the [except]
    clause of [common_name] does not catch; the CN is not domain-checked,
    although it ends with an allowed domain. *)
Example common_name_slash_in_cn :
  sample_common_name (request_with ["host/admin.example.com"] [])
                     ["example.com"] [] = Raise ValueError.
Proof. vm_compute. reflexivity. Qed.

Example common_name_two_cns :
  sample_common_name (request_with ["a.example.com"; "b.example.com"] [])
                     ["example.com"] [] = Raise TooManyCN.
Proof. vm_compute. reflexivity. Qed.

Example key_usage_names_denied :
  sample_key_usage
    (request_with ["h"] [KeyUsage {["digitalSignature"; "keyEncipherment"]}])
    (Some ["digitalSignature"]) =
  Raise (KeyUsageNotAllowed {["keyEncipherment"]}).
Proof. vm_compute. reflexivity. Qed.

Example key_usage_long_name_allowed :
  sample_key_usage (request_with ["h"] [KeyUsage {["digitalSignature"]}])
                   (Some ["Digital Signature"]) = Return tt.
Proof. vm_compute. reflexivity. Qed.

Example ext_key_usage_unknown :
  sample_ext_key_usage (request_with ["h"] []) (Some [inl "not-a-real-usage"]) =
  (Raise (UnknownUsage "not-a-real-usage"), Some [inl "not-a-real-usage"]).
Proof. vm_compute. reflexivity. Qed.

(** The first run of extKeyUsage rewrites the configured list. *)
Example ext_key_usage_rewrites_list :
  sample_ext_key_usage
    (request_with ["h"] [ExtendedKeyUsage {[Sample.serverAuth]}])
    (Some [inl "serverAuth"; inl "1.3.6.1.5.5.7.3.2"]) =
  (Return tt, Some [inr Sample.serverAuth; inr Sample.clientAuth]).
Proof. vm_compute. reflexivity. Qed.

Example ca_status_not_requested :
  ca_status (request_with ["h"] [BasicConstraints true]) false = Raise CANotAllowed.
Proof. vm_compute. reflexivity. Qed.

Example ca_status_flags_required :
  ca_status (request_with ["h"] [BasicConstraints false]) true =
  Raise CAFlagsRequired.
Proof. vm_compute. reflexivity. Qed.

Example source_cidrs_second_matches :
  sample_source_cidrs (Some {| client_addr := 3232235781%N |})
                      (Some ["10.0.0.0/8"; "192.168.1.0/24"]) = Return tt.
Proof. vm_compute. reflexivity. Qed.

Example source_cidrs_invalid :
  sample_source_cidrs (Some {| client_addr := 3232235781%N |})
                      (Some ["not-a-cidr"]) =
  Raise (InvalidCIDRConfig "not-a-cidr").
Proof. vm_compute. reflexivity. Qed.

(** A configured string with two slashes: netaddr raises [ValueError],
    which the [except] clause of [source_cidrs] does not turn into its
    validation error. *)
Example source_cidrs_second_slash :
  sample_source_cidrs (Some {| client_addr := 3232235781%N |})
                      (Some ["10.0.0.0/8/8"; "192.168.1.0/24"]) =
  Raise ValueError.
Proof. vm_compute. reflexivity. Qed.

Example server_group_member :
  server_group (Some {| groups := {["group-a"]} |}) (request_with ["teamA-host1"] [])
               {["teamA" := "group-a"]} = Return tt.
Proof. vm_compute. reflexivity. Qed.

Example server_group_not_member :
  server_group (Some {| groups := {["group-b"]} |}) (request_with ["teamA-host1"] [])
               {["teamA" := "group-a"]} = Raise GroupMismatch.
Proof. vm_compute. reflexivity. Qed.

(** Were the helper's keyword true by default, an entry of another type
    would make alternativeNames fail. *)
Example alternative_names_failing_on_other_types :
  alternative_names_with true
    (request_with ["h"] [SubjectAltName [GN_IP 167772165%N]]) ["example.com"] =
  Raise (UnexpectedAltNameType "IP Address").
Proof. vm_compute. reflexivity. Qed.

(** ** The properties at concrete requests *)

Lemma common_name_ip_first_witness :
  (get_entries_by_oid OID_commonName (request_with ["10.0.0.5"] []) = ["10.0.0.5"] /\
   Sample.IPAddress "10.0.0.5" = Some 167772165%N /\
   sample_common_name (request_with ["10.0.0.5"] []) ["example.com"] ["10.0.1.0/24"] =
   Raise (NetworkNotAllowed "10.0.0.5")) /\
  (get_entries_by_oid OID_commonName (request_with ["10.0.0.5/32"] []) =
     ["10.0.0.5/32"] /\
   Sample.IPAddress "10.0.0.5/32" = None /\
   Sample.IPAddress_raises "10.0.0.5/32" <> AddrFormatError /\
   sample_common_name (request_with ["10.0.0.5/32"] []) ["5/32"] ["10.0.0.0/24"] =
   Raise ValueError).
Proof.
  split.
  - split; [reflexivity|]. split; [reflexivity|].
    destruct (common_name_ip_first Sample.IPAddress Sample.IPAddress_raises
                Sample.IPNetwork Sample.net_contains
                (request_with ["10.0.0.5"] []) "10.0.0.5"
                ["example.com"] ["10.0.1.0/24"] eq_refl) as [Hip _].
    destruct (Hip 167772165%N eq_refl) as (_ & _ & Hrefused & _).
    apply Hrefused. reflexivity.
  - split; [reflexivity|]. split; [reflexivity|].
    split; [vm_compute; discriminate|].
    destruct (common_name_ip_first Sample.IPAddress Sample.IPAddress_raises
                Sample.IPNetwork Sample.net_contains
                (request_with ["10.0.0.5/32"] []) "10.0.0.5/32"
                ["5/32"] ["10.0.0.0/24"] eq_refl) as (_ & _ & Hother).
    apply (Hother eq_refl); vm_compute; discriminate.
Defined.

Lemma common_name_cn_count_witness :
  (1 < length (get_entries_by_oid OID_commonName
                 (request_with ["a.example.com"; "b.example.com"] [])))%nat /\
  sample_common_name (request_with ["a.example.com"; "b.example.com"] [])
                     ["example.com"] [] = Raise TooManyCN.
Proof.
  split; [vm_compute; lia|].
  destruct (common_name_cn_count Sample.IPAddress Sample.IPAddress_raises
              Sample.IPNetwork
              Sample.net_contains
              (request_with ["a.example.com"; "b.example.com"] [])
              ["example.com"] []) as (Hmany & _ & _).
  apply Hmany. vm_compute. lia.
Defined.

Lemma alternative_names_dns_only_witness :
  alternative_names
    (request_with ["h"] [SubjectAltName [GN_IP 167772165%N; GN_Other "email" "a@b"]])
    ["example.com"] = Return tt.
Proof.
  destruct (alternative_names_dns_only
              (request_with ["h"]
                 [SubjectAltName [GN_IP 167772165%N; GN_Other "email" "a@b"]])
              ["example.com"]) as (_ & _ & _ & Hother).
  apply Hother. repeat constructor; discriminate.
Defined.

Lemma ca_status_first_signal_witness :
  ca_status (request_with ["h"] [OtherExtension [1; 2]%N "x"; BasicConstraints true])
            false = Raise CANotAllowed.
Proof.
  destruct (ca_status_first_signal
              (request_with ["h"] [OtherExtension [1; 2]%N "x"; BasicConstraints true])
              false) as (_ & Hbc & _).
  apply (Hbc [OtherExtension [1; 2]%N "x"] []); [reflexivity|].
  repeat constructor.
Defined.

(** C4, as stated, fails on a request that carries both signals with the
    KeyUsage first: no CA is requested and a BasicConstraints with isCA is
    present, yet the failure is KeyUsageCAMismatch, not CANotAllowed. *)
Lemma ca_status_first_signal_counterexample :
  BasicConstraints true ∈
    get_extensions (request_with ["h"] [KeyUsage {["keyCertSign"]}; BasicConstraints true]) /\
  ca_status (request_with ["h"] [KeyUsage {["keyCertSign"]}; BasicConstraints true])
            false = Raise (KeyUsageCAMismatch true false) /\
  ca_status (request_with ["h"] [KeyUsage {["keyCertSign"]}; BasicConstraints true])
            false <> Raise CANotAllowed.
Proof.
  split; [|split].
  - cbn. apply list_elem_of_further, list_elem_of_here.
  - vm_compute. reflexivity.
  - vm_compute. discriminate.
Qed.

Lemma key_usage_denied_witness :
  sample_key_usage
    (request_with ["h"] [KeyUsage {["digitalSignature"; "keyEncipherment"]}])
    (Some ["digitalSignature"]) =
  Raise (KeyUsageNotAllowed {["keyEncipherment"]}).
Proof.
  destruct (key_usage_denied Sample.LONG_KEY_USAGE_NAMES
              (request_with ["h"]
                 [KeyUsage {["digitalSignature"; "keyEncipherment"]}])
              ["digitalSignature"]) as (_ & _ & Heq & _).
  rewrite Heq. vm_compute. reflexivity.
Defined.

Lemma source_cidrs_in_order_witness :
  Forall (misses Sample.IPNetwork Sample.net_contains 3232235781%N) ["10.0.0.0/8"] /\
  sample_source_cidrs (Some {| client_addr := 3232235781%N |})
                      (Some ["10.0.0.0/8"; "not-a-cidr"; "192.168.1.0/24"]) =
  Raise (InvalidCIDRConfig "not-a-cidr") /\
  Sample.IPNetwork "10.0.0.0/8/8" = None /\
  Sample.IPNetwork_raises "10.0.0.0/8/8" <> AddrFormatError /\
  sample_source_cidrs (Some {| client_addr := 3232235781%N |})
                      (Some ["10.0.0.0/8"; "10.0.0.0/8/8"; "192.168.1.0/24"]) =
  Raise ValueError.
Proof.
  assert (Hpre : Forall (misses Sample.IPNetwork Sample.net_contains 3232235781%N)
                        ["10.0.0.0/8"]).
  { repeat constructor. exists (167772160%N, 8%N). split; reflexivity. }
  split; [exact Hpre|].
  destruct (source_cidrs_in_order Sample.IPNetwork Sample.IPNetwork_raises
              Sample.net_contains Sample.addr_str
              {| client_addr := 3232235781%N |} ["10.0.0.0/8"] Hpre)
    as (_ & _ & Hinvalid & Hother).
  split; [apply (Hinvalid "not-a-cidr" ["192.168.1.0/24"]); reflexivity|].
  split; [reflexivity|]. split; [vm_compute; discriminate|].
  apply (Hother "10.0.0.0/8/8" ["192.168.1.0/24"]);
    [reflexivity | vm_compute; discriminate].
Defined.

Lemma server_group_prefix_check_witness :
  server_group (Some {| groups := {["group-b"]} |}) (request_with ["teamA-host1"] [])
               {["teamA" := "group-a"]} = Raise GroupMismatch.
Proof.
  destruct (server_group_prefix_check (request_with ["teamA-host1"] []) "teamA-host1"
              {["teamA" := "group-a"]} eq_refl) as (Hcheck & _).
  destruct (Hcheck {| groups := {["group-b"]} |} "teamA" "host1"
              eq_refl eq_refl eq_refl) as ((_ & Hfail) & _).
  apply Hfail. exists "group-a". split; [reflexivity|].
  cbn. apply not_elem_of_singleton. discriminate.
Defined.

Lemma key_usage_omitted_config_witness :
  sample_key_usage (request_with ["h"] [KeyUsage {["digitalSignature"]}]) None =
    Raise TypeError /\
  sample_key_usage (request_with ["h"] [KeyUsage {["digitalSignature"]}]) (Some []) =
    Raise (KeyUsageNotAllowed {["digitalSignature"]}).
Proof.
  destruct (key_usage_omitted_config Sample.LONG_KEY_USAGE_NAMES
              (request_with ["h"] [KeyUsage {["digitalSignature"]}]))
    as (Hnone & _ & _ & Hflags).
  split; [exact Hnone|]. rewrite Hflags.
  - vm_compute. reflexivity.
  - vm_compute. discriminate.
Defined.

(** C8, as stated, fails on a request without KeyUsage extension: with the
    configuration omitted the validator does not accept it, as it does with
    an empty list, but raises a [TypeError]. *)
Lemma key_usage_omitted_config_counterexample :
  sample_key_usage (request_with ["h"] []) (Some []) = Return tt /\
  sample_key_usage (request_with ["h"] []) None = Raise TypeError /\
  sample_key_usage (request_with ["h"] []) None <>
  sample_key_usage (request_with ["h"] []) (Some []).
Proof.
  split; [|split].
  - vm_compute. reflexivity.
  - reflexivity.
  - vm_compute. discriminate.
Qed.

Lemma run_twice_same_outcome_witness :
  (sample_run
     (Call_ext_key_usage
        (request_with ["h"] [ExtendedKeyUsage {[Sample.clientAuth]}])
        (Some [inl "serverAuth"]))).2 =
    Call_ext_key_usage
      (request_with ["h"] [ExtendedKeyUsage {[Sample.clientAuth]}])
      (Some [inr Sample.serverAuth]) /\
  (sample_run
     (Call_ext_key_usage
        (request_with ["h"] [ExtendedKeyUsage {[Sample.clientAuth]}])
        (Some [inr Sample.serverAuth]))).1 =
    Raise (ExtKeyUsageNotAllowed {[Sample.clientAuth]}).
Proof.
  split; [vm_compute; reflexivity|].
  destruct (run_twice_same_outcome Sample.IPAddress Sample.IPAddress_raises
              Sample.IPNetwork Sample.IPNetwork_raises
              Sample.net_contains Sample.addr_str Sample.ObjectIdentifier
              Sample.LONG_KEY_USAGE_NAMES Sample.EXT_KEY_USAGE_NAMES_INV
              Sample.EXT_KEY_USAGE_SHORT_NAMES_INV Sample.EXT_KEY_USAGE_SHORT_NAMES
              (Call_ext_key_usage
                 (request_with ["h"] [ExtendedKeyUsage {[Sample.clientAuth]}])
                 (Some [inl "serverAuth"]))) as (Hsame & _).
  etransitivity; [|etransitivity; [exact Hsame|]]; vm_compute; reflexivity.
Defined.

Lemma server_group_requires_cn_witness :
  get_entries_by_oid OID_commonName (request_with [] []) = [] /\
  server_group (Address := Sample.Address) None (request_with [] []) ∅ = Raise NoCN.
Proof.
  split; [reflexivity|].
  destruct (server_group_requires_cn (Address := Sample.Address) None
              (request_with [] []) ∅) as (Hnone & _ & _).
  apply Hnone. reflexivity.
Defined.

(** ** The further properties at concrete requests *)

Abbreviation sample_alternative_names_ip :=
  (alternative_names_ip Sample.IPNetwork Sample.net_contains Sample.addr_str).
Abbreviation sample_usage_oid :=
  (usage_oid Sample.ObjectIdentifier Sample.EXT_KEY_USAGE_NAMES_INV
             Sample.EXT_KEY_USAGE_SHORT_NAMES_INV).

(** Every element of one explicit list is an element of another. *)
Ltac list_incl :=
  let x := fresh "x" in
  let H := fresh "H" in
  intros x H;
  repeat (apply elem_of_cons in H as [->|H]);
  first [ apply elem_of_nil in H; contradiction
        | repeat first [apply list_elem_of_here | apply list_elem_of_further] ].

Lemma extensions_whitelist_witness :
  extensions (request_with ["h"] [SubjectAltName []; KeyUsage ∅]) ["subjectAltName"] =
  Raise (ExtensionNotAllowed "keyUsage").
Proof.
  destruct (extensions_whitelist
              (request_with ["h"] [SubjectAltName []; KeyUsage ∅])
              ["subjectAltName"]) as [_ Hfirst].
  apply (Hfirst [SubjectAltName []] (KeyUsage ∅) []).
  - reflexivity.
  - repeat constructor.
  - reflexivity.
Defined.

Lemma extensions_monotone_witness :
  extensions (request_with ["h"] [SubjectAltName []; KeyUsage ∅])
             ["subjectAltName"; "2.5.29.15"] = Return tt /\
  extensions (request_with ["h"] [KeyUsage ∅])
             ["2.5.29.15"; "subjectAltName"; "basicConstraints"] = Return tt.
Proof.
  assert (H : extensions (request_with ["h"] [SubjectAltName []; KeyUsage ∅])
                         ["subjectAltName"; "2.5.29.15"] = Return tt)
    by (vm_compute; reflexivity).
  split; [exact H|].
  apply (extensions_monotone
           (request_with ["h"] [SubjectAltName []; KeyUsage ∅])
           (request_with ["h"] [KeyUsage ∅])
           ["subjectAltName"; "2.5.29.15"]
           ["2.5.29.15"; "subjectAltName"; "basicConstraints"]).
  - list_incl.
  - cbn. list_incl.
  - exact H.
Defined.

Lemma blacklist_names_outcome_witness :
  blacklist_names
    (request_with ["bad.example.com"] [SubjectAltName [GN_DNS "ok.org"]])
    ["example.com"] = Raise (CNBlacklisted "bad.example.com").
Proof.
  destruct (blacklist_names_outcome
              (request_with ["bad.example.com"] [SubjectAltName [GN_DNS "ok.org"]])
              ["example.com"]) as [_ Hne].
  destruct (Hne ltac:(discriminate)) as (Hcn & _ & _).
  apply Hcn; reflexivity.
Defined.

Lemma blacklist_names_antitone_witness :
  blacklist_names (request_with ["good.net"] [SubjectAltName [GN_DNS "ok.org"]])
                  ["example.com"; "evil.org"] = Return tt /\
  blacklist_names (request_with ["good.net"] [SubjectAltName [GN_DNS "ok.org"]])
                  ["evil.org"] = Return tt.
Proof.
  assert (H : blacklist_names
                (request_with ["good.net"] [SubjectAltName [GN_DNS "ok.org"]])
                ["example.com"; "evil.org"] = Return tt)
    by (vm_compute; reflexivity).
  split; [exact H|].
  apply (blacklist_names_antitone _ ["evil.org"] ["example.com"; "evil.org"]);
    [|exact H].
  list_incl.
Defined.

Lemma alternative_names_ip_dns_only_witness :
  sample_alternative_names_ip
    (request_with ["h"] [SubjectAltName [GN_DNS "a.example.com"; GN_DNS "evil.org"]])
    ["example.com"] ["10.0.0.0/8"] =
  alternative_names
    (request_with ["h"] [SubjectAltName [GN_DNS "a.example.com"; GN_DNS "evil.org"]])
    ["example.com"].
Proof.
  apply alternative_names_ip_dns_only. cbn.
  repeat constructor; eexists; reflexivity.
Defined.

Lemma alternative_names_ip_in_order_witness :
  sample_alternative_names_ip
    (request_with ["h"]
       [SubjectAltName [GN_DNS "a.example.com"; GN_IP 167772165%N; GN_DNS "evil.org"]])
    ["example.com"] ["10.0.1.0/24"] =
  Raise (AltNetworkNotAllowed Sample.addr_str 167772165%N).
Proof.
  assert (Hpre : Forall (entry_passes Sample.IPNetwork Sample.net_contains
                           ["example.com"] ["10.0.1.0/24"])
                        [GN_DNS "a.example.com"])
    by (repeat constructor).
  destruct (alternative_names_ip_in_order Sample.IPNetwork Sample.net_contains
              Sample.addr_str
              (request_with ["h"]
                 [SubjectAltName
                    [GN_DNS "a.example.com"; GN_IP 167772165%N; GN_DNS "evil.org"]])
              ["example.com"] ["10.0.1.0/24"] [GN_DNS "a.example.com"] Hpre)
    as (_ & _ & Hip).
  apply (Hip 167772165%N [GN_DNS "evil.org"]); reflexivity.
Defined.

Lemma ext_key_usage_unknown_usage_witness :
  sample_ext_key_usage (request_with ["h"] [ExtendedKeyUsage {[Sample.clientAuth]}])
    (Some [inl "serverAuth"; inl "not-a-real-usage"; inl "clientAuth"]) =
  (Raise (UnknownUsage "not-a-real-usage"),
   Some [inr Sample.serverAuth; inl "not-a-real-usage"; inl "clientAuth"]).
Proof.
  assert (Hpre : Forall (fun u => is_Some (sample_usage_oid u)) [inl "serverAuth"])
    by (repeat constructor; eexists; vm_compute; reflexivity).
  etransitivity.
  - apply (ext_key_usage_unknown_usage Sample.ObjectIdentifier
             Sample.EXT_KEY_USAGE_NAMES_INV Sample.EXT_KEY_USAGE_SHORT_NAMES_INV
             Sample.EXT_KEY_USAGE_SHORT_NAMES _ [inl "serverAuth"]
             [inl "clientAuth"] "not-a-real-usage" Hpre).
    vm_compute. reflexivity.
  - vm_compute. reflexivity.
Defined.

Lemma ext_key_usage_accepts_witness :
  (sample_ext_key_usage (request_with ["h"] [ExtendedKeyUsage {[Sample.serverAuth]}])
     (Some [inl "TLS Web Server Authentication"; inl "1.3.6.1.5.5.7.3.2"])).2 =
  Some [inr Sample.serverAuth; inr Sample.clientAuth].
Proof.
  assert (Hl : Forall (fun u => is_Some (sample_usage_oid u))
                 [inl "TLS Web Server Authentication"; inl "1.3.6.1.5.5.7.3.2"])
    by (repeat constructor; eexists; vm_compute; reflexivity).
  destruct (ext_key_usage_accepts Sample.ObjectIdentifier
              Sample.EXT_KEY_USAGE_NAMES_INV Sample.EXT_KEY_USAGE_SHORT_NAMES_INV
              Sample.EXT_KEY_USAGE_SHORT_NAMES
              (request_with ["h"] [ExtendedKeyUsage {[Sample.serverAuth]}])
              _ Hl) as [Hlist _].
  etransitivity; [exact Hlist|]. vm_compute. reflexivity.
Defined.

Lemma ext_key_usage_denied_witness :
  (sample_ext_key_usage (request_with ["h"] [ExtendedKeyUsage {[[1; 2; 3]%N]}])
     (Some [inl "serverAuth"])).1 = Raise TypeError.
Proof.
  assert (Hl : Forall (fun u => is_Some (sample_usage_oid u)) [inl "serverAuth"])
    by (repeat constructor; eexists; vm_compute; reflexivity).
  destruct (ext_key_usage_denied Sample.ObjectIdentifier
              Sample.EXT_KEY_USAGE_NAMES_INV Sample.EXT_KEY_USAGE_SHORT_NAMES_INV
              Sample.EXT_KEY_USAGE_SHORT_NAMES
              (request_with ["h"] [ExtendedKeyUsage {[[1; 2; 3]%N]}])
              _ Hl) as (_ & _ & Hcrash).
  apply (Hcrash [1; 2; 3]%N).
  - apply (bool_decide_unpack _). vm_compute. exact I.
  - vm_compute. reflexivity.
Defined.

Lemma csr_signature_outcome_witness :
  csr_signature (@Build_CSR Sample.Address [] [] (Some false)) =
    Raise InvalidSignature /\
  csr_signature (@Build_CSR Sample.Address [] [] None) = Raise InvalidSignature.
Proof.
  split.
  - destruct (csr_signature_outcome (@Build_CSR Sample.Address [] [] (Some false)))
      as [_ Hfail].
    apply Hfail. discriminate.
  - destruct (csr_signature_outcome (@Build_CSR Sample.Address [] [] None))
      as [_ Hfail].
    apply Hfail. discriminate.
Defined.

Lemma source_cidrs_outcomes_witness :
  sample_source_cidrs (Some {| client_addr := 3232235781%N |})
                      (Some ["10.0.0.0/8"; "192.168.1.0/24"; "not-a-cidr"]) =
  Return tt.
Proof.
  destruct (source_cidrs_outcomes Sample.IPNetwork Sample.IPNetwork_raises
              Sample.net_contains
              Sample.addr_str {| client_addr := 3232235781%N |}
              ["10.0.0.0/8"; "192.168.1.0/24"; "not-a-cidr"]) as [[_ Haccept] _].
  apply Haccept. exists ["10.0.0.0/8"], "192.168.1.0/24", ["not-a-cidr"].
  split; [reflexivity|]. split; [|reflexivity].
  repeat constructor. exists (167772160%N, 8%N). split; reflexivity.
Defined.

Lemma source_cidrs_order_witness :
  sample_source_cidrs (Some {| client_addr := 3232235781%N |})
                      (Some ["10.0.0.0/8"; "192.168.1.0/24"]) =
  sample_source_cidrs (Some {| client_addr := 3232235781%N |})
                      (Some ["192.168.1.0/24"; "10.0.0.0/8"]).
Proof.
  apply source_cidrs_order.
  - repeat constructor; eexists; vm_compute; reflexivity.
  - apply perm_swap.
Defined.

Lemma source_cidrs_needs_arguments_witness :
  sample_source_cidrs (Some {| client_addr := 3232235781%N |})
                      (Some ["192.168.1.0/24"]) = Return tt /\
  exists r cidr rest,
    Some {| client_addr := 3232235781%N |} = Some r /\
    Some ["192.168.1.0/24"] = Some (cidr :: rest).
Proof.
  assert (H : sample_source_cidrs (Some {| client_addr := 3232235781%N |})
                                  (Some ["192.168.1.0/24"]) = Return tt)
    by (vm_compute; reflexivity).
  split; [exact H|].
  exact (source_cidrs_needs_arguments Sample.IPNetwork Sample.IPNetwork_raises
           Sample.net_contains
           Sample.addr_str _ _ H).
Defined.

Lemma server_group_member_of_all_witness :
  server_group (Some {| groups := {["group-a"; "group-b"]} |})
               (request_with ["teamA-host1"] [])
               {["teamA" := "group-a"]} = Return tt.
Proof.
  apply (server_group_member_of_all _ _ "teamA-host1"); [reflexivity|].
  intros pfx group Hg. apply lookup_singleton_Some in Hg as [_ <-].
  cbn. apply elem_of_union. left. apply elem_of_singleton. reflexivity.
Defined.

Lemma server_group_first_dash_witness :
  server_group (Some {| groups := {["group-b"]} |})
               (request_with ["teamA-host1"] []) {["teamA" := "group-a"]} =
  server_group (Some {| groups := {["group-b"]} |})
               (request_with ["teamA-db-2.example.com"] []) {["teamA" := "group-a"]}.
Proof.
  apply (server_group_first_dash _ _ _ _ "teamA" "host1" "db-2.example.com");
    reflexivity.
Defined.

Lemma server_group_no_auth_witness :
  server_group (Address := Sample.Address) None (request_with ["teamA-host1"] [])
               {["teamA" := "group-a"]} = Raise AttributeError.
Proof.
  destruct (server_group_no_auth (request_with ["teamA-host1"] [])
              {["teamA" := "group-a"]} "teamA" "host1" eq_refl eq_refl eq_refl)
    as [[_ Hcrash] _].
  apply Hcrash. eexists. apply lookup_singleton_eq.
Defined.

Lemma ca_status_agreement_witness :
  ca_status (request_with ["h"] [BasicConstraints true]) false <> Return tt /\
  ca_status (request_with ["h"] [BasicConstraints true]) true = Return tt.
Proof.
  assert (H : ca_status (request_with ["h"] [BasicConstraints true]) false <>
              Return tt) by (vm_compute; discriminate).
  split; [exact H|].
  destruct (ca_status_agreement (request_with ["h"] [BasicConstraints true]) true)
    as [_ [_ Hone]].
  apply Hone. exact H.
Defined.

Lemma ca_status_order_witness :
  ca_status (request_with ["h"] [KeyUsage {["keyCertSign"]}; BasicConstraints true])
            true = Return tt <->
  ca_status (request_with ["h"] [BasicConstraints true; KeyUsage {["keyCertSign"]}])
            true = Return tt.
Proof.
  apply ca_status_order. cbn. apply perm_swap.
Defined.

Lemma key_usage_order_witness :
  sample_key_usage
    (request_with ["h"] [KeyUsage {["digitalSignature"; "cRLSign"]}; BasicConstraints false])
    (Some ["digitalSignature"; "Key Encipherment"]) =
  sample_key_usage
    (request_with ["h"] [BasicConstraints false; KeyUsage {["digitalSignature"; "cRLSign"]}])
    (Some ["Key Encipherment"; "digitalSignature"; "Key Encipherment"]).
Proof.
  apply key_usage_order.
  - cbn. apply perm_swap.
  - intros x. split; revert x; list_incl.
Defined.

Lemma key_usage_monotone_witness :
  sample_key_usage (request_with ["h"] [KeyUsage {["digitalSignature"]}])
                   (Some ["digitalSignature"]) = Return tt /\
  sample_key_usage (request_with ["h"] [])
                   (Some ["keyEncipherment"; "digitalSignature"]) = Return tt.
Proof.
  assert (H : sample_key_usage (request_with ["h"] [KeyUsage {["digitalSignature"]}])
                               (Some ["digitalSignature"]) = Return tt)
    by (vm_compute; reflexivity).
  split; [exact H|].
  apply (key_usage_monotone Sample.LONG_KEY_USAGE_NAMES
           (request_with ["h"] [KeyUsage {["digitalSignature"]}])
           (request_with ["h"] [])
           ["digitalSignature"] ["keyEncipherment"; "digitalSignature"]).
  - list_incl.
  - cbn. list_incl.
  - exact H.
Defined.

Lemma common_name_ignores_extensions_witness :
  sample_common_name
    (request_with ["api.example.com"] [SubjectAltName [GN_DNS "evil.org"]])
    ["example.com"] [] =
  sample_common_name (request_with ["api.example.com"] []) ["example.com"] [].
Proof.
  apply (common_name_ignores_extensions _ _ _ _ _ _ "api.example.com"); reflexivity.
Defined.

Lemma key_usage_long_name_witness :
  sample_key_usage (request_with ["h"] [KeyUsage {["digitalSignature"; "cRLSign"]}])
                   (Some ["Digital Signature"]) =
  sample_key_usage (request_with ["h"] [KeyUsage {["digitalSignature"; "cRLSign"]}])
                   (Some ["digitalSignature"]).
Proof.
  apply key_usage_long_name; vm_compute; reflexivity.
Defined.

Lemma common_name_accepted_witness :
  sample_common_name (request_with [] [SubjectAltName [GN_DNS "evil.org"]])
                     ["example.com"] [] = Return tt /\
  Exists (fun ext => get_name ext = "subjectAltName")
         (get_extensions (request_with [] [SubjectAltName [GN_DNS "evil.org"]])).
Proof.
  assert (H : sample_common_name
                (request_with [] [SubjectAltName [GN_DNS "evil.org"]])
                ["example.com"] [] = Return tt) by (vm_compute; reflexivity).
  split; [exact H|].
  destruct (common_name_accepted Sample.IPAddress Sample.IPAddress_raises
              Sample.IPNetwork
              Sample.net_contains _ _ _ H) as [_ Halt].
  apply Halt. reflexivity.
Defined.

Lemma ext_key_usage_spelling_witness :
  (sample_ext_key_usage (request_with ["h"] [ExtendedKeyUsage {[Sample.clientAuth]}])
     (Some [inl "TLS Web Server Authentication"])).1 =
  (sample_ext_key_usage (request_with ["h"] [ExtendedKeyUsage {[Sample.clientAuth]}])
     (Some [inl "1.3.6.1.5.5.7.3.1"; inl "serverAuth"])).1.
Proof.
  apply ext_key_usage_spelling.
  - repeat constructor; eexists; vm_compute; reflexivity.
  - repeat constructor; eexists; vm_compute; reflexivity.
  - intros o. vm_compute allowed_oids. split; revert o; list_incl.
  - reflexivity.
Defined.
